(** * check_questions.py: the MockMate question inspector

    A shallow embedding of [src/check_questions.py] and the properties its
    specification states about it.

    The script is a sequential client of a PostgreSQL server.  Everything the
    script does not own is collected in an environment [Env]: the process
    environment variables, the client and server clocks, the content of the
    database, the server's decision to accept a connection, and a schedule of
    driver faults.  What the script does is recorded in a log: the lines it
    prints, the driver calls it makes and the helper functions it enters.
    The Python control flow ([try]/[except]/[finally], early [return]) is kept
    by a small state-and-exception monad. *)

From Stdlib Require Import Ascii String QArith.
From stdpp Require Import base tactics option list numbers strings pretty sorting gmap.

Set Warnings "-register-all".
Local Open Scope string_scope.
Local Open Scope Z_scope.

(** ** Python values *)

(** A Python [str] is a [string]; one [ascii] stands for one character, as
    slicing and [len] in the source count characters.  The pictograms of the
    fixed messages are written as the bytes of their encoding; nothing
    measures those messages. *)

Definition chr (n : nat) : string := String (ascii_of_nat n) "".
Definition nl : string := chr 10.
Definition dquote : string := chr 34.
Definition backslash : string := chr 92.

(** [s * n] on a string. *)
Fixpoint str_mul (s : string) (n : nat) : string :=
  match n with
  | O => ""
  | S n' => s +:+ str_mul s n'
  end.

(** [sep.join(l)] *)
Fixpoint str_join (sep : string) (l : list string) : string :=
  match l with
  | [] => ""
  | [x] => x
  | x :: l' => x +:+ sep +:+ str_join sep l'
  end.

(** [f"{s:w}"] for a string: left aligned, padded with spaces to width [w]. *)
Definition ljust (w : nat) (s : string) : string :=
  s +:+ str_mul " " (w - String.length s).

Definition str_contains (c : ascii) (s : string) : bool :=
  bool_decide (c ∈ list_ascii_of_string s).

(** The values a row field or a decoded JSON document can hold.  A float is
    carried by the text [repr] gives for it: the script only ever tests it for
    truth and formats it. *)
Inductive pyval : Type :=
  | PNone
  | PBool (b : bool)
  | PInt (n : Z)
  | PFloat (repr : string)
  | PStr (s : string)
  | PList (l : list pyval)
  | PDict (d : list (string * pyval)).

(** Truth value of an object, as [if metadata:] tests it. *)
Definition truthy (v : pyval) : bool :=
  match v with
  | PNone => false
  | PBool b => b
  | PInt n => negb (n =? 0)
  | PFloat r => negb (bool_decide (r = "0.0") || bool_decide (r = "-0.0"))
  | PStr s => negb (bool_decide (s = ""))
  | PList l => match l with [] => false | _ => true end
  | PDict d => match d with [] => false | _ => true end
  end.

Definition hex_digit (n : nat) : string :=
  String (nth n (list_ascii_of_string "0123456789abcdef") "0"%char) "".

(** One character of [repr] of a string quoted with [q]. *)
Definition repr_char (q c : ascii) : string :=
  let n := nat_of_ascii c in
  if bool_decide (c = q) || bool_decide (n = 92%nat) then backslash +:+ String c ""
  else if bool_decide (n = 9%nat) then backslash +:+ "t"
  else if bool_decide (n = 10%nat) then backslash +:+ "n"
  else if bool_decide (n = 13%nat) then backslash +:+ "r"
  else if bool_decide (n < 32)%nat
          || (bool_decide (127 ≤ n)%nat && bool_decide (n ≤ 160)%nat)
          || bool_decide (n = 173%nat)
       then backslash +:+ "x" +:+ hex_digit (n / 16) +:+ hex_digit (n mod 16)
  else String c "".

(** [repr(s)] of a string: single quotes, unless the string holds a single
    quote and no double quote. *)
Definition str_repr (s : string) : string :=
  let q := if str_contains "'"%char s && negb (str_contains (ascii_of_nat 34) s)
           then ascii_of_nat 34 else "'"%char in
  String q "" +:+
  String.concat "" (map (repr_char q) (list_ascii_of_string s)) +:+
  String q "".

Fixpoint py_repr (v : pyval) : string :=
  match v with
  | PNone => "None"
  | PBool true => "True"
  | PBool false => "False"
  | PInt n => pretty n
  | PFloat r => r
  | PStr s => str_repr s
  | PList l => "[" +:+ str_join ", " (map py_repr l) +:+ "]"
  | PDict d =>
      "{" +:+ str_join ", "
                (map (λ kv, str_repr kv.1 +:+ ": " +:+ py_repr kv.2) d) +:+ "}"
  end.

(** [str(v)], which an f-string applies to a value without a format spec. *)
Definition py_str (v : pyval) : string :=
  match v with
  | PStr s => s
  | _ => py_repr v
  end.

(** ** [int(s)] on a string, base 10

    Surrounding white space is dropped; an optional sign comes first; digits
    may be separated by single underscores.  The number of digits is not
    limited. *)

Definition is_space (c : ascii) : bool :=
  let n := nat_of_ascii c in
  bool_decide (n = 32%nat) || (bool_decide (9 ≤ n)%nat && bool_decide (n ≤ 13)%nat)
  || (bool_decide (28 ≤ n)%nat && bool_decide (n ≤ 31)%nat)
  || bool_decide (n = 133%nat) || bool_decide (n = 160%nat).

Definition is_digit (c : ascii) : bool :=
  let n := nat_of_ascii c in bool_decide (48 ≤ n)%nat && bool_decide (n ≤ 57)%nat.

Definition digit_val (c : ascii) : Z := Z.of_nat (nat_of_ascii c) - 48.

Fixpoint lstrip (l : list ascii) : list ascii :=
  match l with
  | c :: l' => if is_space c then lstrip l' else l
  | [] => []
  end.

Definition strip (l : list ascii) : list ascii := rev (lstrip (rev (lstrip l))).

(** [digits acc after_digit l]: the value of the digit string [l] read after
    the digits accumulated in [acc]; [after_digit] says whether the previous
    character was a digit, which an underscore and the end both require. *)
Fixpoint digits (acc : Z) (after_digit : bool) (l : list ascii) : option Z :=
  match l with
  | [] => if after_digit then Some acc else None
  | c :: l' =>
      if is_digit c then digits (10 * acc + digit_val c) true l'
      else if bool_decide (c = "_"%char) && after_digit then digits acc false l'
      else None
  end.

Definition py_int (s : string) : option Z :=
  match strip (list_ascii_of_string s) with
  | "-"%char :: l => Z.opp <$> digits 0 false l
  | "+"%char :: l => digits 0 false l
  | l => digits 0 false l
  end.

(** ** Exceptions

    Every exception the script can meet is a subclass of [Exception]: the
    driver's errors, [ValueError] from [int] and the JSON decoder,
    [AttributeError], [OverflowError].  [str(e)] is its message. *)
Record exn : Type := Exn { exn_class : string; exn_msg : string }.

Definition ValueError (msg : string) : exn := Exn "ValueError" msg.
Definition AttributeError (msg : string) : exn := Exn "AttributeError" msg.
Definition OverflowError (msg : string) : exn := Exn "OverflowError" msg.
Definition ProgrammingError (msg : string) : exn := Exn "psycopg2.ProgrammingError" msg.
Definition DataError (msg : string) : exn := Exn "psycopg2.DataError" msg.

Inductive result (A : Type) : Type :=
  | Ok (a : A)
  | Raise (e : exn).
Arguments Ok {A} a.
Arguments Raise {A} e.

Definition int (s : string) : result Z :=
  match py_int s with
  | Some n => Ok n
  | None =>
      Raise (ValueError ("invalid literal for int() with base 10: " +:+ str_repr s))
  end.

(** ** Points in time

    A [datetime] is a number of microseconds since 0001-01-01 00:00:00, the
    first instant the type can hold, and is taken as UTC; a [timedelta] is a
    number of microseconds. *)

Definition us_per_hour : Z := 3600000000.
Definition us_per_day : Z := 86400000000.

(** [datetime.max] is 9999-12-31 23:59:59.999999. *)
Definition datetime_max : Z := 3652059 * us_per_day - 1.
Definition timedelta_max_days : Z := 999999999.

(** [timedelta(hours=h)] for an integer [h] *)
Definition timedelta (hours : Z) : result Z :=
  let us := hours * us_per_hour in
  if bool_decide (Z.abs (us / us_per_day) ≤ timedelta_max_days) then Ok us
  else Raise (OverflowError
                ("days=" +:+ pretty (us / us_per_day) +:+
                 "; must have magnitude <= 999999999")).

(** [t - delta] on a datetime *)
Definition datetime_sub (t delta : Z) : result Z :=
  let r := t - delta in
  if bool_decide (0 ≤ r ≤ datetime_max) then Ok r
  else Raise (OverflowError "date value out of range").

(** An integer in decimal, zero padded on the left to [w] digits. *)
Definition zpad (w : nat) (n : Z) : string :=
  let s := pretty n in str_mul "0" (w - String.length s) +:+ s.

(** Year, month and day of the day number [d] counted from 0001-01-01, in the
    proleptic Gregorian calendar. *)
Definition civil_from_days (d : Z) : Z * Z * Z :=
  let z := d + 306 in
  let era := z / 146097 in
  let doe := z - era * 146097 in
  let yoe := (doe - doe / 1460 + doe / 36524 - doe / 146096) / 365 in
  let doy := doe - (365 * yoe + yoe / 4 - yoe / 100) in
  let mp := (5 * doy + 2) / 153 in
  let day := doy - (153 * mp + 2) / 5 + 1 in
  let m := if mp <? 10 then mp + 3 else mp - 9 in
  let y := yoe + era * 400 + (if m <=? 2 then 1 else 0) in
  (y, m, day).

(** [str(t)] of a naive datetime: the ISO form with a space, and the
    microseconds when they are not zero. *)
Definition datetime_str (t : Z) : string :=
  let '(y, m, d) := civil_from_days (t / us_per_day) in
  let r := t mod us_per_day in
  let us := r mod 1000000 in
  let secs := r / 1000000 in
  zpad 4 y +:+ "-" +:+ zpad 2 m +:+ "-" +:+ zpad 2 d +:+ " " +:+
  zpad 2 (secs / 3600) +:+ ":" +:+ zpad 2 (secs / 60 mod 60) +:+ ":" +:+
  zpad 2 (secs mod 60) +:+
  (if us =? 0 then "" else "." +:+ zpad 6 us).

(** [f"{x:.1f}"] for the number of hours the server computed, taken as an
    exact rational: one decimal, ties to the even digit. *)
Definition format_1f (x : Q) : string :=
  let a := Qnum x * 10 in
  let b := Z.pos (Qden x) in
  let fl := Z.abs a / b in
  let rem := Z.abs a mod b in
  let tenths :=
    if 2 * rem <? b then fl
    else if (2 * rem =? b) && Z.even fl then fl
    else fl + 1 in
  (if a <? 0 then "-" else "") +:+
  pretty (tenths / 10) +:+ "." +:+ pretty (tenths mod 10).

(** ** The table and the queries *)

(** A row of [interview_messages], with the fields the script reads.  As in
    the data model of the specification, only the metadata may be absent. *)
Record message : Type := Message {
  msg_id : string;
  msg_session_id : string;
  message_type : string;
  content : string;
  msg_metadata : pyval;
  msg_timestamp : Z
}.

(** A row of [information_schema.columns]:
    [(column_name, data_type, is_nullable, column_default)]. *)
Record column : Type := Column {
  column_name : string;
  data_type : string;
  is_nullable : string;
  column_default : option string
}.

(** What the server holds: the catalogue rows for tables named
    [interview_messages], in ordinal order, and the table itself when the
    name resolves. *)
Record Database : Type := {
  db_columns : list column;
  interview_messages : option (list message)
}.

(** A row of the recency query:
    [(id, session_id, question_text, metadata, timestamp, hours_ago)]. *)
Record recent_row : Type := RecentRow {
  r_id : string;
  r_session_id : string;
  r_question_text : string;
  r_metadata : pyval;
  r_timestamp : Z;
  r_hours_ago : Q
}.

(** A row of the fallback query:
    [(id, session_id, question_text, metadata, timestamp)]. *)
Record all_row : Type := AllRow {
  a_id : string;
  a_session_id : string;
  a_question_text : string;
  a_metadata : pyval;
  a_timestamp : Z
}.

(** The four statements the script sends, with their parameters. *)
Inductive query : Type :=
  | QColumns
  | QRecent (time_threshold : Z)
  | QAll (limit : Z)
  | QCount (type : string).

Definition row (q : query) : Type :=
  match q with
  | QColumns => column
  | QRecent _ => recent_row
  | QAll _ => all_row
  | QCount _ => Z
  end.

Definition is_type (t : string) (m : message) : bool :=
  bool_decide (message_type m = t).

(** [ORDER BY timestamp DESC]: a later row comes before an earlier one. *)
Definition newer_first (a b : message) : Prop := msg_timestamp b ≤ msg_timestamp a.

Global Instance newer_first_dec a b : Decision (newer_first a b).
Proof. unfold newer_first. apply _. Defined.

Definition order_by_timestamp_desc (l : list message) : list message :=
  merge_sort newer_first l.

Definition to_recent_row (now : Z) (m : message) : recent_row :=
  RecentRow (msg_id m) (msg_session_id m) (content m) (msg_metadata m)
            (msg_timestamp m) ((now - msg_timestamp m) # 3600000000).

Definition to_all_row (m : message) : all_row :=
  AllRow (msg_id m) (msg_session_id m) (content m) (msg_metadata m)
         (msg_timestamp m).

Definition undefined_table : exn :=
  ProgrammingError ("relation " +:+ dquote +:+ "interview_messages" +:+ dquote
                    +:+ " does not exist").

(** The rows the server answers a statement with, at server time [now]. *)
Definition run_query (db : Database) (now : Z) (q : query) : result (list (row q)) :=
  match q with
  | QColumns => Ok (db_columns db)
  | QRecent time_threshold =>
      match interview_messages db with
      | None => Raise undefined_table
      | Some t =>
          Ok (to_recent_row now <$>
                order_by_timestamp_desc
                  (filter (λ m, is_type "question" m
                                && bool_decide (time_threshold ≤ msg_timestamp m)) t))
      end
  | QAll limit =>
      match interview_messages db with
      | None => Raise undefined_table
      | Some t =>
          if limit <? 0 then Raise (DataError "LIMIT must not be negative")
          else Ok (to_all_row <$>
                     take (Z.to_nat limit)
                       (order_by_timestamp_desc (filter (is_type "question") t)))
      end
  | QCount type =>
      match interview_messages db with
      | None => Raise undefined_table
      | Some t => Ok [Z.of_nat (length (filter (is_type type) t))]
      end
  end.

(** ** The world outside the script *)

(** The keyword arguments of [psycopg2.connect]. *)
Record conn_params : Type := ConnParams {
  host : string;
  port : Z;
  dbname : string;
  user : string;
  password : string
}.

Inductive connection : Type := Connection (p : conn_params).
Inductive cursor : Type := Cursor (conn : connection).

(** [fault n] is the error, if any, that the driver call number [n] of the run
    ends with whatever it was asked: a dropped link, an aborted transaction, a
    closed connection.  [db_accepts] is the server's verdict on a connection
    request.  The table does not change while the script runs. *)
Record Env : Type := {
  environ : gmap string string;
  utcnow : Z;
  db_now : Z;
  database : Database;
  db_accepts : conn_params → option exn;
  fault : nat → option exn
}.

(** ** The log of a run *)

Inductive event : Type :=
  | EConnect (p : conn_params)
  | ECursor
  | EExecute (q : query)
  | EFetchall
  | EFetchone
  | EClose.

(** [Out line] is one call of [print]; [Drv ev] one call into the driver;
    [Enter f] marks the entry into the function [f] of the script. *)
Inductive entry : Type :=
  | Out (line : string)
  | Drv (ev : event)
  | Enter (f : string).

Abbreviation log := (list entry).

Definition is_drv (x : entry) : bool := match x with Drv _ => true | _ => false end.
Definition is_query (x : entry) : bool :=
  match x with Drv (EExecute _) => true | _ => false end.
Definition is_close (x : entry) : bool :=
  match x with Drv EClose => true | _ => false end.
Definition is_enter (f : string) (x : entry) : bool :=
  match x with Enter g => bool_decide (g = f) | _ => false end.

(** Number of log entries that satisfy [p]. *)
Definition count (p : entry → bool) (s : log) : nat := length (filter p s).

(** The printed lines, in order. *)
Definition stdout (s : log) : list string :=
  omap (λ x, match x with Out l => Some l | _ => None end) s.

(** ** Computations: environment, log and exceptions *)

Definition M (A : Type) : Type := Env → log → result A * log.

Definition ret {A} (a : A) : M A := λ _ s, (Ok a, s).

Definition bind {A B} (m : M A) (k : A → M B) : M B :=
  λ e s, match m e s with
         | (Ok a, s') => k a e s'
         | (Raise x, s') => (Raise x, s')
         end.

Global Instance M_ret : MRet M := @ret.
Global Instance M_bind : MBind M := λ A B k m, bind m k.

(** A pure step that may raise. *)
Definition lift {A} (r : result A) : M A := λ _ s, (r, s).

(** [try: m except Exception as e: h e] *)
Definition try_except {A} (m : M A) (h : exn → M A) : M A :=
  λ e s, match m e s with
         | (Ok a, s') => (Ok a, s')
         | (Raise x, s') => h x e s'
         end.

(** [try: m finally: f].  The clean-up runs on both exits; an exception of
    the clean-up replaces the outcome of [m]. *)
Definition try_finally {A} (m : M A) (f : M unit) : M A :=
  λ e s, match m e s with
         | (r, s') =>
             match f e s' with
             | (Ok _, s'') => (r, s'')
             | (Raise x, s'') => (Raise x, s'')
             end
         end.

(** [for x in l: body x] *)
Fixpoint for_each {A} (l : list A) (body : A → M unit) : M unit :=
  match l with
  | [] => ret tt
  | x :: l' => bind (body x) (λ _, for_each l' body)
  end.

(** [enumerate(l, start)] *)
Fixpoint enumerate {A} (l : list A) (start : nat) : list (nat * A) :=
  match l with
  | [] => []
  | x :: l' => (start, x) :: enumerate l' (S start)
  end.

(** The log with one more entry at its end. *)
Definition record (s : log) (x : entry) : log := (s ++ [x])%list.

(** [print(line)]; writing to the standard output does not fail. *)
Definition print (line : string) : M unit := λ _ s, (Ok tt, record s (Out line)).

(** The mark a function of the script leaves when it is called. *)
Definition enter (f : string) : M unit := λ _ s, (Ok tt, record s (Enter f)).

(** [os.getenv(key, default)] *)
Definition getenv (key fallback : string) : M string :=
  λ e s, (Ok (default fallback (environ e !! key)), s).

(** [datetime.utcnow()] *)
Definition datetime_utcnow : M Z := λ e s, (Ok (utcnow e), s).

(** A call into the driver: it is logged, fails when the schedule says so,
    and otherwise does [act]. *)
Definition driver {A} (ev : event) (act : Env → result A) : M A :=
  λ e s, (match fault e (count is_drv s) with
          | Some x => Raise x
          | None => act e
          end, record s (Drv ev)).

(** [psycopg2.connect(host=..., port=..., database=..., user=..., password=...)] *)
Definition psycopg2_connect (p : conn_params) : M connection :=
  driver (EConnect p)
    (λ e, match db_accepts e p with
          | Some x => Raise x
          | None => Ok (Connection p)
          end).

(** [conn.cursor()] *)
Definition conn_cursor (conn : connection) : M cursor :=
  driver ECursor (λ _, Ok (Cursor conn)).

(** [cursor.execute(q, params)].  The rows the server sends back stay in the
    cursor until they are fetched; here they are handed to the fetch. *)
Definition cursor_execute (cur : cursor) (q : query) : M (list (row q)) :=
  driver (EExecute q) (λ e, run_query (database e) (db_now e) q).

(** [cursor.fetchall()] *)
Definition cursor_fetchall {A} (pending : list A) : M (list A) :=
  driver EFetchall (λ _, Ok pending).

(** [cursor.fetchone()]: the next row, or [None] when there is none. *)
Definition cursor_fetchone {A} (pending : list A) : M (option A) :=
  driver EFetchone (λ _, Ok (head pending)).

(** [conn.close()] *)
Definition conn_close (conn : connection) : M unit :=
  driver EClose (λ _, Ok tt).

(** [r[0]] on the outcome of [fetchone] for a one-column row. *)
Definition item_0 {A} (r : option A) : M A :=
  match r with
  | Some a => ret a
  | None => lift (Raise (Exn "TypeError" "'NoneType' object is not subscriptable"))
  end.

(** ** Dictionaries *)

(** [d[key]] when present; a Python dictionary holds a key once. *)
Fixpoint dict_lookup (key : string) (d : list (string * pyval)) : option pyval :=
  match d with
  | [] => None
  | (k, v) :: d' => if bool_decide (k = key) then Some v else dict_lookup key d'
  end.

Definition type_name (v : pyval) : string :=
  match v with
  | PNone => "NoneType"
  | PBool _ => "bool"
  | PInt _ => "int"
  | PFloat _ => "float"
  | PStr _ => "str"
  | PList _ => "list"
  | PDict _ => "dict"
  end.

(** [meta.get(key, fallback)]: only a dictionary has the method. *)
Definition get (meta : pyval) (key : string) (fallback : pyval) : result pyval :=
  match meta with
  | PDict d => Ok (default fallback (dict_lookup key d))
  | _ => Raise (AttributeError ("'" +:+ type_name meta +:+
                                "' object has no attribute 'get'"))
  end.

(** ** The script *)

(** [json.loads] belongs to Python's standard library, not to the script: the
    script is read for any decoder of text into values. *)
Class Decoder : Type := json_loads : string → result pyval.

Section script.

Context {decoder : Decoder}.

(** Lines 15-33: the body of the [try] of [connect_to_database]. *)
Definition connect_body : M (option connection) :=
  host ← getenv "DB_HOST" "localhost";
  port_text ← getenv "DB_PORT" "5432";
  port ← lift (int port_text);
  dbname ← getenv "DB_NAME" "mockmate_db";
  user ← getenv "DB_USER" "mockmate_user";
  password ← getenv "DB_PASSWORD" "";
  print ("🔗 Connecting to database: " +:+ user +:+ "@" +:+ host +:+ ":"
         +:+ pretty port +:+ "/" +:+ dbname);;
  conn ← psycopg2_connect (ConnParams host port dbname user password);
  print "✅ Database connection successful!";;
  mret (Some conn).

(** Lines 12-37. *)
Definition connect_to_database : M (option connection) :=
  enter "connect_to_database";;
  try_except
    connect_body
    (λ e,
     print ("❌ Database connection failed: " +:+ exn_msg e);;
     mret None).

(** Lines 81 and 131: [json.loads(metadata) if isinstance(metadata, str)
    else metadata]. *)
Definition parse_metadata (metadata : pyval) : result pyval :=
  match metadata with
  | PStr s => json_loads s
  | _ => Ok metadata
  end.

(** Lines 79-86 and, word for word, 129-136: what is printed about the
    metadata of a row. *)
Definition show_metadata (metadata : pyval) : M unit :=
  if truthy metadata then
    try_except
      (meta ← lift (parse_metadata metadata);
       source ← lift (get meta "source" (PStr "unknown"));
       print ("   Source: " +:+ py_str source);;
       category ← lift (get meta "category" (PStr "unknown"));
       print ("   Category: " +:+ py_str category);;
       difficulty ← lift (get meta "difficulty" (PStr "unknown"));
       print ("   Difficulty: " +:+ py_str difficulty))
      (λ _, print ("   Metadata: " +:+ py_str metadata))
  else mret tt.

(** The text line of the recency view, line 75. *)
Definition text_line (question_text : string) : string :=
  "   Text: " +:+ substring 0 100 question_text
  +:+ (if bool_decide (100 < String.length question_text)%nat then "..." else "").

(** Lines 72-86: the body of the loop of the recency view. *)
Definition show_recent (i : nat) (r : recent_row) : M unit :=
  print (nl +:+ "📝 Question #" +:+ pretty i +:+ ":");;
  print ("   ID: " +:+ r_id r);;
  print ("   Session: " +:+ r_session_id r);;
  print (text_line (r_question_text r));;
  print ("   Timestamp: " +:+ datetime_str (r_timestamp r));;
  print ("   Time ago: " +:+ format_1f (r_hours_ago r) +:+ " hours");;
  show_metadata (r_metadata r).

(** Lines 42-88: the body of the [try] of [check_recent_questions]. *)
Definition recent_questions_body (conn : connection) (hours_back : Z)
  : M (list recent_row) :=
  cursor ← conn_cursor conn;
  now ← datetime_utcnow;
  delta ← lift (timedelta hours_back);
  time_threshold ← lift (datetime_sub now delta);
  pending ← cursor_execute cursor (QRecent time_threshold);
  questions ← cursor_fetchall pending;
  match questions with
  | [] =>
      print ("❌ No questions found in the last " +:+ pretty hours_back
             +:+ " hours");;
      mret []
  | _ =>
      print ("✅ Found " +:+ pretty (length questions)
             +:+ " question(s) in the last " +:+ pretty hours_back
             +:+ " hours:");;
      print (str_mul "-" 80);;
      for_each (enumerate questions 1) (λ ir, show_recent ir.1 ir.2);;
      mret questions
  end.

(** Lines 39-92. *)
Definition check_recent_questions (conn : connection) (hours_back : Z)
  : M (list recent_row) :=
  enter "check_recent_questions";;
  try_except
    (recent_questions_body conn hours_back)
    (λ e,
     print ("❌ Error querying questions: " +:+ exn_msg e);;
     mret []).

(** Lines 123-136: the body of the loop of the fallback view. *)
Definition show_all (i : nat) (r : all_row) : M unit :=
  print (nl +:+ "📝 Question #" +:+ pretty i +:+ ":");;
  print ("   ID: " +:+ a_id r);;
  print ("   Session: " +:+ a_session_id r);;
  print ("   Text: " +:+ a_question_text r);;
  print ("   Timestamp: " +:+ datetime_str (a_timestamp r));;
  show_metadata (a_metadata r).

(** Lines 97-138: the body of the [try] of [check_all_questions]. *)
Definition all_questions_body (conn : connection) (limit : Z)
  : M (list all_row) :=
  cursor ← conn_cursor conn;
  pending ← cursor_execute cursor (QAll limit);
  questions ← cursor_fetchall pending;
  match questions with
  | [] =>
      print "❌ No questions found in the database";;
      mret []
  | _ =>
      print ("✅ Found " +:+ pretty (length questions)
             +:+ " most recent question(s):");;
      print (str_mul "-" 80);;
      for_each (enumerate questions 1) (λ ir, show_all ir.1 ir.2);;
      mret questions
  end.

(** Lines 94-142. *)
Definition check_all_questions (conn : connection) (limit : Z)
  : M (list all_row) :=
  enter "check_all_questions";;
  try_except
    (all_questions_body conn limit)
    (λ e,
     print ("❌ Error querying questions: " +:+ exn_msg e);;
     mret []).

(** Line 166: one line of the table structure. *)
Definition column_line (c : column) : string :=
  "   " +:+ ljust 20 (column_name c) +:+ " | " +:+ ljust 15 (data_type c)
  +:+ " | "
  +:+ ljust 8 (if bool_decide (is_nullable c = "YES") then "NULL" else "NOT NULL")
  +:+ " | " +:+ default "" (column_default c).

(** Lines 147-166: the body of the [try] of [check_table_structure]. *)
Definition table_structure_body (conn : connection) : M unit :=
  cursor ← conn_cursor conn;
  pending ← cursor_execute cursor QColumns;
  columns ← cursor_fetchall pending;
  match columns with
  | [] => print "❌ interview_messages table not found"
  | _ =>
      print "📋 interview_messages table structure:";;
      print (str_mul "-" 60);;
      for_each columns (λ c, print (column_line c))
  end.

(** Lines 144-169. *)
Definition check_table_structure (conn : connection) : M unit :=
  enter "check_table_structure";;
  try_except
    (table_structure_body conn)
    (λ e, print ("❌ Error checking table structure: " +:+ exn_msg e)).

(** Lines 194-204 of [main]: the two counts and the summary. *)
Definition database_summary (conn : connection) : M unit :=
  cursor ← conn_cursor conn;
  pending ← cursor_execute cursor (QCount "question");
  first ← cursor_fetchone pending;
  total_questions ← item_0 first;
  pending ← cursor_execute cursor (QCount "answer");
  first ← cursor_fetchone pending;
  total_answers ← item_0 first;
  print (nl +:+ "📊 Database Summary:");;
  print ("   Total Questions: " +:+ pretty total_questions);;
  print ("   Total Answers: " +:+ pretty total_answers).

(** Lines 181-187 of [main]: the run up to the answer of the recency
    query. *)
Definition main_recent (conn : connection) : M (list recent_row) :=
  print (nl +:+ "1. Checking table structure...");;
  check_table_structure conn;;
  print (nl +:+ "2. Checking recent questions (last 24 hours)...");;
  check_recent_questions conn 24.

(** Lines 181-192 of [main]: the three guarded steps. *)
Definition main_queries (conn : connection) : M unit :=
  recent_questions ← main_recent conn;
  match recent_questions with
  | [] =>
      print (nl +:+ "3. Checking all questions (last 10)...");;
      check_all_questions conn 10;;
      mret tt
  | _ => mret tt
  end.

(** Lines 181-204 of [main]: the body of its [try]. *)
Definition main_try (conn : connection) : M unit :=
  main_queries conn;;
  database_summary conn.

(** Lines 206-208 of [main]: its [finally]. *)
Definition main_finally (conn : connection) : M unit :=
  conn_close conn;;
  print (nl +:+ "🔒 Database connection closed").

(** Lines 172-176 of [main]: the run up to the answer of the connection
    helper. *)
Definition main_connect : M (option connection) :=
  print "🔍 MockMate Database Question Checker";;
  print (str_mul "=" 50);;
  connect_to_database.

(** Lines 171-208. *)
Definition main : M unit :=
  conn ← main_connect;
  match conn with
  | None => mret tt
  | Some conn => try_finally (main_try conn) (main_finally conn)
  end.

End script.

(** ** The lines of a row

    The entries the two views log for a row before its metadata, and the
    entry for one field of a metadata dictionary. *)

Definition recent_lines (i : nat) (r : recent_row) : log :=
  [ Out (nl +:+ "📝 Question #" +:+ pretty i +:+ ":");
    Out ("   ID: " +:+ r_id r);
    Out ("   Session: " +:+ r_session_id r);
    Out (text_line (r_question_text r));
    Out ("   Timestamp: " +:+ datetime_str (r_timestamp r));
    Out ("   Time ago: " +:+ format_1f (r_hours_ago r) +:+ " hours") ].

Definition all_lines (i : nat) (r : all_row) : log :=
  [ Out (nl +:+ "📝 Question #" +:+ pretty i +:+ ":");
    Out ("   ID: " +:+ a_id r);
    Out ("   Session: " +:+ a_session_id r);
    Out ("   Text: " +:+ a_question_text r);
    Out ("   Timestamp: " +:+ datetime_str (a_timestamp r)) ].

Definition field_line (label key : string) (d : list (string * pyval)) : entry :=
  Out ("   " +:+ label +:+ ": "
       +:+ py_str (default (PStr "unknown") (dict_lookup key d))).

Definition dict_lines (d : list (string * pyval)) : log :=
  [ field_line "Source" "source" d;
    field_line "Category" "category" d;
    field_line "Difficulty" "difficulty" d ].

(** A line of the given kind: it starts with the label. *)
Definition is_line (label : string) (x : entry) : bool :=
  match x with
  | Out l => String.prefix label l
  | _ => false
  end.

(** ** A JSON decoder for the examples

    [json_fragment_loads] reads the JSON documents that have no fractional or
    exponent part in a number, no [NaN] or [Infinity], and no [\u] escape in a
    string, and decodes them as [json.loads] does; other text it rejects.  It
    is the decoder the concrete runs below use. *)

Definition parser : Type := list ascii → option (pyval * list ascii).

Fixpoint skip_ws (l : list ascii) : list ascii :=
  match l with
  | c :: l' =>
      let n := nat_of_ascii c in
      if bool_decide (n = 32%nat) || bool_decide (n = 9%nat)
         || bool_decide (n = 10%nat) || bool_decide (n = 13%nat)
      then skip_ws l' else l
  | [] => []
  end.

(** The characters of a string literal after its opening quote. *)
Fixpoint json_string (acc : string) (l : list ascii) : option (string * list ascii) :=
  match l with
  | [] => None
  | c :: l' =>
      if bool_decide (nat_of_ascii c = 34%nat) then Some (acc, l')
      else if bool_decide (nat_of_ascii c = 92%nat) then
        match l' with
        | e :: l'' =>
            let n := nat_of_ascii e in
            let esc :=
              if bool_decide (n = 34%nat) || bool_decide (n = 92%nat)
                 || bool_decide (n = 47%nat) then Some n
              else if bool_decide (e = "b"%char) then Some 8%nat
              else if bool_decide (e = "f"%char) then Some 12%nat
              else if bool_decide (e = "n"%char) then Some 10%nat
              else if bool_decide (e = "r"%char) then Some 13%nat
              else if bool_decide (e = "t"%char) then Some 9%nat
              else None in
            match esc with
            | Some k => json_string (acc +:+ chr k) l''
            | None => None
            end
        | [] => None
        end
      else if bool_decide (nat_of_ascii c < 32)%nat then None
      else json_string (acc +:+ String c "") l'
  end.

Fixpoint json_digits (acc : Z) (l : list ascii) : Z * list ascii :=
  match l with
  | c :: l' => if is_digit c then json_digits (10 * acc + digit_val c) l' else (acc, l)
  | [] => (acc, [])
  end.

(** An integer literal: no leading zero, and nothing that would make the
    number a float. *)
Definition json_int (l : list ascii) : option (Z * list ascii) :=
  match l with
  | c :: l' =>
      if is_digit c then
        let '(n, r) := if bool_decide (c = "0"%char) then (0, l') else json_digits 0 l in
        match r with
        | d :: _ =>
            if is_digit d || bool_decide (d = "."%char) || bool_decide (d = "e"%char)
               || bool_decide (d = "E"%char) then None else Some (n, r)
        | [] => Some (n, r)
        end
      else None
  | [] => None
  end.

(** [d[key] = v] *)
Fixpoint dict_set (key : string) (v : pyval) (d : list (string * pyval))
  : list (string * pyval) :=
  match d with
  | [] => [(key, v)]
  | (k, w) :: d' =>
      if bool_decide (k = key) then (k, v) :: d' else (k, w) :: dict_set key v d'
  end.

Fixpoint json_elements (value : parser) (fuel : nat) (acc : list pyval)
  (l : list ascii) : option (pyval * list ascii) :=
  match fuel with
  | O => None
  | S fuel' =>
      match value l with
      | Some (v, r) =>
          match skip_ws r with
          | c :: r' =>
              if bool_decide (c = ","%char)
              then json_elements value fuel' (acc ++ [v])%list r'
              else if bool_decide (c = "]"%char) then Some (PList (acc ++ [v])%list, r')
              else None
          | [] => None
          end
      | None => None
      end
  end.

Fixpoint json_members (value : parser) (fuel : nat) (acc : list (string * pyval))
  (l : list ascii) : option (pyval * list ascii) :=
  match fuel with
  | O => None
  | S fuel' =>
      match skip_ws l with
      | q :: r =>
          if bool_decide (nat_of_ascii q = 34%nat) then
            match json_string "" r with
            | Some (k, r1) =>
                match skip_ws r1 with
                | c :: r2 =>
                    if bool_decide (c = ":"%char) then
                      match value r2 with
                      | Some (v, r3) =>
                          match skip_ws r3 with
                          | c' :: r4 =>
                              if bool_decide (c' = ","%char)
                              then json_members value fuel' (dict_set k v acc) r4
                              else if bool_decide (c' = "}"%char)
                              then Some (PDict (dict_set k v acc), r4)
                              else None
                          | [] => None
                          end
                      | None => None
                      end
                    else None
                | [] => None
                end
            | None => None
            end
          else None
      | [] => None
      end
  end.

Definition starts_with (p : string) (l : list ascii) : option (list ascii) :=
  let lp := list_ascii_of_string p in
  if bool_decide (take (length lp) l = lp) then Some (drop (length lp) l) else None.

Fixpoint json_value (fuel : nat) (l : list ascii) : option (pyval * list ascii) :=
  match fuel with
  | O => None
  | S fuel' =>
      match skip_ws l with
      | c :: r =>
          if bool_decide (c = "{"%char) then
            match skip_ws r with
            | c' :: r' =>
                if bool_decide (c' = "}"%char) then Some (PDict [], r')
                else json_members (json_value fuel') (length r) [] r
            | [] => None
            end
          else if bool_decide (c = "["%char) then
            match skip_ws r with
            | c' :: r' =>
                if bool_decide (c' = "]"%char) then Some (PList [], r')
                else json_elements (json_value fuel') (length r) [] r
            | [] => None
            end
          else if bool_decide (nat_of_ascii c = 34%nat) then
            prod_map PStr id <$> json_string "" r
          else if bool_decide (c = "-"%char) then
            prod_map (λ n, PInt (- n)) id <$> json_int r
          else if is_digit c then prod_map PInt id <$> json_int (c :: r)
          else if bool_decide (c = "t"%char) then pair (PBool true) <$> starts_with "rue" r
          else if bool_decide (c = "f"%char) then pair (PBool false) <$> starts_with "alse" r
          else if bool_decide (c = "n"%char) then pair PNone <$> starts_with "ull" r
          else None
      | [] => None
      end
  end.

Definition json_fragment_loads : Decoder := λ s,
  let l := list_ascii_of_string s in
  match json_value (S (length l)) l with
  | Some (v, r) =>
      match skip_ws r with
      | [] => Ok v
      | _ => Raise (ValueError "Extra data")
      end
  | None => Raise (ValueError "Expecting value")
  end.

(** ** A sample world

    A table with three questions, written 1, 5 and 30 hours before the run,
    and one answer; the metadata of the rows covers a JSON object with a
    missing key, text that is not JSON, and no metadata. *)

Definition sample_now : Z := 738000 * us_per_day.

Definition hours_before (h : Z) : Z := sample_now - h * us_per_hour.

Definition quoted (s : string) : string := dquote +:+ s +:+ dquote.

(** The text [{"source":"llm","category":"algorithms"}]. *)
Definition sample_metadata : string :=
  "{" +:+ quoted "source" +:+ ":" +:+ quoted "llm" +:+ ","
  +:+ quoted "category" +:+ ":" +:+ quoted "algorithms" +:+ "}".

Definition question_5h : message :=
  Message "1" "s1" "question" "What is a heap?" (PStr sample_metadata)
          (hours_before 5).
Definition answer_4h : message :=
  Message "2" "s1" "answer" "A tree with an order." PNone (hours_before 4).
Definition question_30h : message :=
  Message "3" "s1" "question" (str_mul "x" 101) (PStr "not json")
          (hours_before 30).
Definition question_1h : message :=
  Message "4" "s2" "question" "Define a monad." PNone (hours_before 1).

Definition sample_table : list message :=
  [question_5h; answer_4h; question_30h; question_1h].

Definition sample_columns : list column :=
  [ Column "id" "uuid" "NO" (Some "gen_random_uuid()");
    Column "content" "text" "NO" None ].

Definition no_fault : nat → option exn := λ _, None.

(** The driver call number [n] fails with [x]. *)
Definition fault_at (n : nat) (x : exn) : nat → option exn :=
  λ k, if bool_decide (k = n) then Some x else None.

Definition sample_env (vars : gmap string string) (table : option (list message))
  (faults : nat → option exn) : Env :=
  {| environ := vars;
     utcnow := sample_now;
     db_now := sample_now;
     database := {| db_columns := sample_columns; interview_messages := table |};
     db_accepts := λ _, None;
     fault := faults |}.

(** A world whose server refuses every connection. *)
Definition refusing_env : Env :=
  {| environ := ∅;
     utcnow := sample_now;
     db_now := sample_now;
     database := {| db_columns := sample_columns;
                    interview_messages := Some sample_table |};
     db_accepts := λ _, Some (Exn "psycopg2.OperationalError" "connection refused");
     fault := no_fault |}.

(** The sample world: the environment is empty, the table is [sample_table],
    nothing fails. *)
Definition quiet_env : Env := sample_env ∅ (Some sample_table) no_fault.

(** The same server with no row in the table. *)
Definition empty_env : Env := sample_env ∅ (Some []) no_fault.

(** The sample world with [DB_PORT] set to text that is not a number. *)
Definition bad_port_env : Env :=
  sample_env {[ "DB_PORT" := "54x2" ]} (Some sample_table) no_fault.

(** What the run has logged when the connection helper has answered: the
    two lines of the title, then the helper's own entries. *)
Definition connecting_log : log :=
  [ Out "🔍 MockMate Database Question Checker";
    Out (str_mul "=" 50);
    Enter "connect_to_database";
    Out "🔗 Connecting to database: mockmate_user@localhost:5432/mockmate_db";
    Drv (EConnect (ConnParams "localhost" 5432 "mockmate_db" "mockmate_user" "")) ].

Definition refused_log : log :=
  (connecting_log ++ [Out "❌ Database connection failed: connection refused"])%list.

Definition connected_log : log :=
  (connecting_log ++ [Out "✅ Database connection successful!"])%list.

(** What the first two steps log on the empty table. *)
Definition empty_recent_log : log :=
  [ Out (nl +:+ "1. Checking table structure...");
    Enter "check_table_structure"; Drv ECursor; Drv (EExecute QColumns);
    Drv EFetchall;
    Out "📋 interview_messages table structure:";
    Out (str_mul "-" 60);
    Out "   id                   | uuid            | NOT NULL | gen_random_uuid()";
    Out "   content              | text            | NOT NULL | ";
    Out (nl +:+ "2. Checking recent questions (last 24 hours)...");
    Enter "check_recent_questions"; Drv ECursor;
    Drv (EExecute (QRecent (hours_before 24))); Drv EFetchall;
    Out "❌ No questions found in the last 24 hours" ].

(** The run of the script with the decoder of the examples. *)
Abbreviation run_main := (main (decoder := json_fragment_loads)).

Definition connection_lost : exn :=
  Exn "psycopg2.OperationalError" "server closed the connection unexpectedly".

Definition sample_conn : connection :=
  Connection (ConnParams "localhost" 5432 "mockmate_db" "mockmate_user" "").

(** ** Properties of computations *)

(** [emits P m]: whatever the world, [m] leaves the log it starts from in
    place and appends only entries that satisfy [P]. *)
Definition emits {A} (P : entry → Prop) (m : M A) : Prop :=
  ∀ e s, ∃ r d, m e s = (r, (s ++ d)%list) ∧ Forall P d.

(** [safe m]: whatever the world, [m] ends without an exception. *)
Definition safe {A} (m : M A) : Prop :=
  ∀ e s, ∃ a s', m e s = (Ok a, s').

(** [P] holds of every printed line and of every step of a query. *)
Definition admits_queries (P : entry → Prop) : Prop :=
  (∀ l, P (Out l)) ∧ P (Drv ECursor) ∧ (∀ q, P (Drv (EExecute q)))
  ∧ P (Drv EFetchall) ∧ P (Drv EFetchone).

(** ** Views of the log *)

(** The driver calls of a log, in order. *)
Definition drivers (s : log) : list event :=
  omap (λ x, match x with Drv ev => Some ev | _ => None end) s.

(** The functions of the script a log saw entered, in order. *)
Definition calls (s : log) : list string :=
  omap (λ x, match x with Enter f => Some f | _ => None end) s.

(** A step of a query: a cursor, a statement or a fetch. *)
Definition is_step (ev : event) : Prop :=
  match ev with
  | ECursor | EExecute _ | EFetchall | EFetchone => True
  | EConnect _ | EClose => False
  end.

(** The statements a log saw sent, in order. *)
Definition statements (s : log) : list query :=
  omap (λ x, match x with Drv (EExecute q) => Some q | _ => None end) s.

(** [sends_within e l m]: in the world [e], the statements [m] sends are
    statements of [l], each sent at most once and in the order of [l]. *)
Definition sends_within {A} (e : Env) (l : list query) (m : M A) : Prop :=
  ∀ s, ∃ r d, m e s = (r, (s ++ d)%list) ∧ statements d `sublist_of` l.

(** Not the mark of an entry into a function. *)
Definition no_enter (x : entry) : Prop :=
  match x with Enter _ => False | _ => True end.

(** [enters l m]: whatever the world, the functions [m] enters are those of
    [l], in that order. *)
Definition enters {A} (l : list string) (m : M A) : Prop :=
  ∀ e s, ∃ r d, m e s = (r, (s ++ d)%list) ∧ calls d = l.

(** The arguments lines 16-20 read from the environment, for the port [n]. *)
Definition configured (e : Env) (n : Z) : conn_params :=
  ConnParams (default "localhost" (environ e !! "DB_HOST")) n
             (default "mockmate_db" (environ e !! "DB_NAME"))
             (default "mockmate_user" (environ e !! "DB_USER"))
             (default "" (environ e !! "DB_PASSWORD")).

(** The world [e] with [DB_PASSWORD] set to [pw]. *)
Definition with_password (e : Env) (pw : string) : Env :=
  {| environ := <["DB_PASSWORD" := pw]> (environ e);
     utcnow := utcnow e;
     db_now := db_now e;
     database := database e;
     db_accepts := db_accepts e;
     fault := fault e |}.


(** * Reasoning about runs *)

(** ** Counting in the log *)

Lemma count_app p (s d : log) : count p (s ++ d)%list = (count p s + count p d)%nat.
Proof. unfold count. by rewrite filter_app, length_app. Qed.

Lemma count_none p (d : log) : Forall (λ x, p x = false) d → count p d = 0%nat.
Proof.
  unfold count. induction 1 as [|x d Hx _ IH]; [done|].
  rewrite filter_cons. destruct (decide (p x)) as [Hp|_]; [|done].
  rewrite Hx in Hp. done.
Qed.

Lemma count_record p (s : log) x :
  count p (record s x) = (count p s + (if p x then 1 else 0))%nat.
Proof.
  unfold record. rewrite count_app. f_equal.
  unfold count. rewrite filter_cons, filter_nil. by destruct (p x).
Qed.

Section rules.
Context {A B : Type} (P : entry → Prop).

Lemma emits_ret (a : A) : emits P (mret a).
Proof. intros e s. exists (Ok a), []. by rewrite app_nil_r. Qed.

Lemma emits_lift (r : result A) : emits P (lift r).
Proof. intros e s. exists r, []. by rewrite app_nil_r. Qed.

Lemma emits_getenv k d : emits P (getenv k d).
Proof. intros e s. eexists _, []. by rewrite app_nil_r. Qed.

Lemma emits_utcnow : emits P datetime_utcnow.
Proof. intros e s. eexists _, []. by rewrite app_nil_r. Qed.

Lemma emits_print l : P (Out l) → emits P (print l).
Proof. intros H e s. exists (Ok tt), [Out l]. split; [done|]. by constructor. Qed.

Lemma emits_enter f : P (Enter f) → emits P (enter f).
Proof. intros H e s. exists (Ok tt), [Enter f]. split; [done|]. by constructor. Qed.

Lemma emits_driver ev (act : Env → result A) : P (Drv ev) → emits P (driver ev act).
Proof. intros H e s. eexists _, [Drv ev]. split; [done|]. by constructor. Qed.

Lemma emits_item_0 (r : option A) : emits P (item_0 r).
Proof. destruct r; [apply emits_ret | apply emits_lift]. Qed.

Lemma emits_bind (m : M A) (k : A → M B) :
  emits P m → (∀ a, emits P (k a)) → emits P (m ≫= k).
Proof.
  intros Hm Hk e s. destruct (Hm e s) as (r & d & Hr & Hd).
  unfold mbind, M_bind, bind. rewrite Hr. destruct r as [a|x].
  - destruct (Hk a e (s ++ d)%list) as (r' & d' & Hr' & Hd').
    exists r', (d ++ d')%list. rewrite Hr', <-app_assoc.
    split; [done|]. by apply Forall_app.
  - by exists (Raise x), d.
Qed.

Lemma emits_try_except (m : M A) (h : exn → M A) :
  emits P m → (∀ x, emits P (h x)) → emits P (try_except m h).
Proof.
  intros Hm Hh e s. destruct (Hm e s) as (r & d & Hr & Hd).
  unfold try_except. rewrite Hr. destruct r as [a|x].
  - by exists (Ok a), d.
  - destruct (Hh x e (s ++ d)%list) as (r' & d' & Hr' & Hd').
    exists r', (d ++ d')%list. rewrite Hr', <-app_assoc.
    split; [done|]. by apply Forall_app.
Qed.

Lemma emits_try_finally (m : M A) (f : M unit) :
  emits P m → emits P f → emits P (try_finally m f).
Proof.
  intros Hm Hf e s. destruct (Hm e s) as (r & d & Hr & Hd).
  destruct (Hf e (s ++ d)%list) as (r' & d' & Hr' & Hd').
  unfold try_finally. rewrite Hr, Hr', <-app_assoc.
  destruct r' as [[]|x]; eexists _, (d ++ d')%list;
    (split; [done|]); by apply Forall_app.
Qed.

Lemma safe_ret (a : A) : safe (mret a).
Proof. intros e s. by exists a, s. Qed.

Lemma safe_bind (m : M A) (k : A → M B) :
  safe m → (∀ a, safe (k a)) → safe (m ≫= k).
Proof.
  intros Hm Hk e s. destruct (Hm e s) as (a & s' & Ha).
  unfold mbind, M_bind, bind. rewrite Ha. apply Hk.
Qed.

Lemma safe_try_except (m : M A) (h : exn → M A) :
  (∀ x, safe (h x)) → safe (try_except m h).
Proof.
  intros Hh e s. unfold try_except.
  destruct (m e s) as [[a|x] s']; [by exists a, s' | apply Hh].
Qed.

Lemma safe_for_each (l : list A) (body : A → M unit) :
  (∀ a, safe (body a)) → safe (for_each l body).
Proof.
  intros Hb. induction l as [|a l IH]; simpl.
  - intros e s. by exists tt, s.
  - intros e s. destruct (Hb a e s) as ([] & s' & Ha).
    unfold bind. rewrite Ha. apply IH.
Qed.
End rules.

Lemma emits_for_each {A} P (l : list A) (body : A → M unit) :
  (∀ a, emits P (body a)) → emits P (for_each l body).
Proof.
  intros Hb. induction l as [|a l IH]; simpl.
  - apply emits_ret.
  - apply (emits_bind P (body a) (λ _, for_each l body)); [apply Hb | done].
Qed.

Lemma safe_print l : safe (print l).
Proof. intros e s. by eexists _, _. Qed.

Lemma safe_enter f : safe (enter f).
Proof. intros e s. by eexists _, _. Qed.

(** Follows the shape of a computation with the rules above; the goals that
    remain are the conditions on the entries it logs. *)
Ltac walk :=
  repeat first
    [ apply emits_bind; [|intros ?]
    | apply emits_try_except; [|intros ?]
    | apply emits_try_finally
    | apply emits_for_each; intros ?
    | apply emits_print
    | apply emits_enter
    | apply emits_driver
    | apply emits_ret | apply emits_lift | apply emits_getenv
    | apply emits_utcnow | apply emits_item_0
    | apply safe_bind; [|intros ?]
    | apply safe_try_except; intros ?
    | apply safe_for_each; intros ?
    | apply safe_print | apply safe_enter | apply safe_ret
    | match goal with
      | |- emits _ (match ?x with _ => _ end) => destruct x
      | |- emits _ (if ?b then _ else _) => destruct b
      | |- safe (match ?x with _ => _ end) => destruct x
      | |- safe (if ?b then _ else _) => destruct b
      end ].

(** Unfolds the operations of a run, so that its cases can be told apart. *)
Ltac run_unfold :=
  unfold mbind, M_bind, bind, mret, M_ret, ret, try_except, conn_cursor,
    cursor_execute, cursor_fetchall, cursor_fetchone, driver,
    datetime_utcnow, lift, print, enter in *.

(** ** Strings *)

Lemma substring_0_length (n : nat) (s : string) :
  String.length (substring 0 n s) = Nat.min n (String.length s).
Proof.
  revert s. induction n as [|n IH]; intros [|c s]; simpl; try done.
  by rewrite IH.
Qed.

Lemma substring_0_all (n : nat) (s : string) :
  (String.length s ≤ n)%nat → substring 0 n s = s.
Proof.
  revert s. induction n as [|n IH]; intros [|c s]; simpl; try done; [lia|].
  intros H. f_equal. apply IH. lia.
Qed.

Lemma substring_0_split (n : nat) (s : string) :
  s = substring 0 n s +:+ substring n (String.length s - n) s.
Proof.
  revert s. induction n as [|n IH]; intros s.
  - rewrite Nat.sub_0_r, (substring_0_all (String.length s)) by lia. by destruct s.
  - destruct s as [|c s]; simpl; [done|].
    change (String c s
            = String c (substring 0 n s +:+ substring n (String.length s - n) s)).
    by rewrite <-IH.
Qed.

(** * The functions of the script *)

Section facts.

Context {decoder : Decoder}.

(** *** Metadata *)

Lemma show_metadata_falsy m e s :
  truthy m = false → show_metadata m e s = (Ok tt, s).
Proof. intros H. unfold show_metadata. by rewrite H. Qed.

Lemma show_metadata_raw m e s :
  truthy m = true → (∀ d, parse_metadata m ≠ Ok (PDict d)) →
  show_metadata m e s = (Ok tt, record s (Out ("   Metadata: " +:+ py_str m))).
Proof.
  intros Ht Hp. unfold show_metadata. rewrite Ht.
  unfold try_except, mbind, M_bind, bind, lift.
  destruct (parse_metadata m) as [meta|x] eqn:E; [|done].
  destruct meta; try done. by destruct (Hp d).
Qed.

Lemma show_metadata_dict m d e s :
  truthy m = true → parse_metadata m = Ok (PDict d) →
  show_metadata m e s = (Ok tt, (s ++ dict_lines d)%list).
Proof.
  intros Ht Hp. unfold show_metadata. rewrite Ht.
  unfold try_except, mbind, M_bind, bind, lift. rewrite Hp. simpl.
  unfold print, record, dict_lines. by rewrite <-!app_assoc.
Qed.

Lemma show_metadata_safe m : safe (show_metadata m).
Proof. unfold show_metadata. walk. Qed.

Lemma show_metadata_emits P m : (∀ l, P (Out l)) → emits P (show_metadata m).
Proof. intros H. unfold show_metadata. walk; apply H. Qed.

(** *** The rows of the two views *)

Lemma show_recent_log i r e s :
  show_recent i r e s = show_metadata (r_metadata r) e (s ++ recent_lines i r)%list.
Proof.
  unfold show_recent, mbind, M_bind, bind, print, record, recent_lines. simpl.
  by rewrite <-!app_assoc.
Qed.

Lemma show_all_log i r e s :
  show_all i r e s = show_metadata (a_metadata r) e (s ++ all_lines i r)%list.
Proof.
  unfold show_all, mbind, M_bind, bind, print, record, all_lines. simpl.
  by rewrite <-!app_assoc.
Qed.



Lemma show_recent_emits P i r : (∀ l, P (Out l)) → emits P (show_recent i r).
Proof. intros H. unfold show_recent. walk; try apply H. by apply show_metadata_emits. Qed.

Lemma show_all_emits P i r : (∀ l, P (Out l)) → emits P (show_all i r).
Proof. intros H. unfold show_all. walk; try apply H. by apply show_metadata_emits. Qed.

(** *** The statements *)

Global Instance newer_first_trans : Transitive newer_first.
Proof. unfold newer_first. intros a b c ??. lia. Qed.

Global Instance newer_first_total : Total newer_first.
Proof. unfold newer_first. intros a b. lia. Qed.

Lemma order_by_timestamp_desc_sorted l :
  StronglySorted newer_first (order_by_timestamp_desc l).
Proof. apply (StronglySorted_merge_sort newer_first). Qed.

Lemma order_by_timestamp_desc_elem m l :
  m ∈ order_by_timestamp_desc l ↔ m ∈ l.
Proof. unfold order_by_timestamp_desc. by rewrite merge_sort_Permutation. Qed.

(** The rows of the recency statement: questions of the table, not older
    than the threshold, the newest first. *)
Lemma run_query_recent db now t rows :
  run_query db now (QRecent t) = Ok rows →
  (∀ r, r ∈ rows →
     t ≤ r_timestamp r ∧
     ∃ table m, interview_messages db = Some table ∧ m ∈ table ∧
                message_type m = "question" ∧ r = to_recent_row now m) ∧
  StronglySorted (λ a b, r_timestamp b ≤ r_timestamp a) rows.
Proof.
  simpl. destruct (interview_messages db) as [table|]; [|done].
  intros [= <-]. split.
  - intros r (m & -> & Hm)%list_elem_of_fmap.
    apply order_by_timestamp_desc_elem, list_elem_of_filter in Hm as [Hm Hin].
    apply andb_True in Hm as [Hq Ht].
    apply bool_decide_unpack in Hq, Ht. split; [done|]. by exists table, m.
  - apply (StronglySorted_fmap _ newer_first); [|apply order_by_timestamp_desc_sorted].
    by intros a b.
Qed.

(** The rows of the fallback statement: questions of the table, the newest
    first, no more than the limit. *)
Lemma run_query_all db now limit rows :
  run_query db now (QAll limit) = Ok rows →
  Z.of_nat (length rows) ≤ Z.max 0 limit ∧
  (∀ r, r ∈ rows →
     ∃ table m, interview_messages db = Some table ∧ m ∈ table ∧
                message_type m = "question" ∧ r = to_all_row m) ∧
  StronglySorted (λ a b, a_timestamp b ≤ a_timestamp a) rows.
Proof.
  simpl. destruct (interview_messages db) as [table|]; [|done].
  destruct (limit <? 0) eqn:Hl; [done|]. apply Z.ltb_ge in Hl.
  intros [= <-]. split_and!.
  - rewrite length_fmap, length_take. lia.
  - intros r (m & -> & Hm)%list_elem_of_fmap.
    apply elem_of_take in Hm as (i & Hm%list_elem_of_lookup_2 & _).
    apply order_by_timestamp_desc_elem, list_elem_of_filter in Hm as [Hq Hin].
    apply bool_decide_unpack in Hq. by exists table, m.
  - apply (StronglySorted_fmap _ newer_first); [by intros a b|].
    eapply StronglySorted_app_1_l. rewrite take_drop.
    apply order_by_timestamp_desc_sorted.
Qed.

Lemma timedelta_ok hours delta : timedelta hours = Ok delta → delta = hours * us_per_hour.
Proof. unfold timedelta. case_bool_decide; congruence. Qed.

Lemma datetime_sub_ok t delta r : datetime_sub t delta = Ok r → r = t - delta.
Proof. unfold datetime_sub. case_bool_decide; congruence. Qed.

(** *** Loops *)

Lemma enumerate_elem {A} (l : list A) k a :
  a ∈ l → ∃ i, (i, a) ∈ enumerate l k.
Proof.
  revert k. induction l as [|b l IH]; intros k; [by intros ?%elem_of_nil|].
  intros [->|Ha]%elem_of_cons; simpl.
  - exists k. by left.
  - destruct (IH (S k) Ha) as [i Hi]. exists i. by right.
Qed.

(** If every turn of a loop ends well and logs its entry [Q a], the loop
    ends well and has logged the entry of every element. *)
Lemma for_each_elem {A} (body : A → M unit) (Q : A → entry) l e s :
  (∀ a e s, ∃ d, body a e s = (Ok tt, (s ++ d)%list) ∧ Q a ∈ d) →
  ∃ d, for_each l body e s = (Ok tt, (s ++ d)%list) ∧ ∀ a, a ∈ l → Q a ∈ d.
Proof.
  intros Hb. revert s. induction l as [|a l IH]; intros s; simpl.
  - exists []. rewrite app_nil_r. split; [done|]. by intros a ?%elem_of_nil.
  - destruct (Hb a e s) as (d & Hd & Hq). unfold bind. rewrite Hd.
    destruct (IH (s ++ d)%list) as (d' & Hd' & Hq').
    exists (d ++ d')%list. rewrite Hd', <-app_assoc. split; [done|].
    intros b [->|Hin]%elem_of_cons; apply elem_of_app; auto.
Qed.

Lemma show_metadata_run m e s :
  ∃ d, show_metadata m e s = (Ok tt, (s ++ d)%list).
Proof.
  destruct (show_metadata_safe m e s) as ([] & s' & Hs).
  destruct (show_metadata_emits (λ _, True) m (λ _, I) e s) as (r & d & Hd & _).
  exists d. congruence.
Qed.

Lemma show_recent_run i r e s :
  ∃ d, show_recent i r e s = (Ok tt, (s ++ d)%list)
       ∧ Out (text_line (r_question_text r)) ∈ d.
Proof.
  destruct (show_metadata_run (r_metadata r) e (s ++ recent_lines i r)%list)
    as (d & Hd).
  exists (recent_lines i r ++ d)%list. rewrite show_recent_log, Hd, <-app_assoc.
  split; [done|]. apply elem_of_app. left. unfold recent_lines. set_solver.
Qed.

Lemma show_all_run i r e s :
  ∃ d, show_all i r e s = (Ok tt, (s ++ d)%list)
       ∧ Out ("   Text: " +:+ a_question_text r) ∈ d.
Proof.
  destruct (show_metadata_run (a_metadata r) e (s ++ all_lines i r)%list)
    as (d & Hd).
  exists (all_lines i r ++ d)%list. rewrite show_all_log, Hd, <-app_assoc.
  split; [done|]. apply elem_of_app. left. unfold all_lines. set_solver.
Qed.

(** *** The bodies of the query helpers *)

Lemma recent_questions_body_ok conn W e s rows s' :
  recent_questions_body conn W e s = (Ok rows, s') →
  run_query (database e) (db_now e) (QRecent (utcnow e - W * us_per_hour)) = Ok rows
  ∧ ∃ d, s' = (s ++ d)%list
         ∧ ∀ r, r ∈ rows → Out (text_line (r_question_text r)) ∈ d.
Proof.
  unfold recent_questions_body. run_unfold. intros H.
  destruct (fault e (count is_drv s)); [done|].
  destruct (timedelta W) as [delta|] eqn:Hd; [|done].
  destruct (datetime_sub (utcnow e) delta) as [t|] eqn:Ht; [|done].
  apply timedelta_ok in Hd as ->. apply datetime_sub_ok in Ht as ->.
  destruct (fault e _); [done|].
  destruct (run_query _ _ _) as [questions|] eqn:Hq; [|done].
  destruct (fault e _); [done|].
  destruct questions as [|q questions].
  - simplify_eq. split; [done|]. eexists. unfold record. rewrite <-!app_assoc.
    split; [done|]. by intros r ?%elem_of_nil.
  - match type of H with
    | context [for_each ?l ?b e ?s0] =>
        destruct (for_each_elem b (λ ir, Out (text_line (r_question_text ir.2)))
                    l e s0) as (d & Hrun & Hin);
          [intros [i r] ??; apply show_recent_run | rewrite Hrun in H]
    end.
    simplify_eq. split; [done|]. eexists. unfold record. rewrite <-!app_assoc.
    split; [done|]. intros r [i Hi]%(enumerate_elem _ 1%nat).
    repeat (apply elem_of_app; right). by apply (Hin (i, r)).
Qed.

Lemma all_questions_body_ok conn N e s rows s' :
  all_questions_body conn N e s = (Ok rows, s') →
  run_query (database e) (db_now e) (QAll N) = Ok rows
  ∧ ∃ d, s' = (s ++ d)%list
         ∧ ∀ r, r ∈ rows → Out ("   Text: " +:+ a_question_text r) ∈ d.
Proof.
  unfold all_questions_body. run_unfold. intros H.
  destruct (fault e (count is_drv s)); [done|].
  destruct (fault e _); [done|].
  destruct (run_query _ _ _) as [questions|] eqn:Hq; [|done].
  destruct (fault e _); [done|].
  destruct questions as [|q questions].
  - simplify_eq. split; [done|]. eexists. unfold record. rewrite <-!app_assoc.
    split; [done|]. by intros r ?%elem_of_nil.
  - match type of H with
    | context [for_each ?l ?b e ?s0] =>
        destruct (for_each_elem b (λ ir, Out ("   Text: " +:+ a_question_text ir.2))
                    l e s0) as (d & Hrun & Hin);
          [intros [i r] ??; apply show_all_run | rewrite Hrun in H]
    end.
    simplify_eq. split; [done|]. eexists. unfold record. rewrite <-!app_assoc.
    split; [done|]. intros r [i Hi]%(enumerate_elem _ 1%nat).
    repeat (apply elem_of_app; right). by apply (Hin (i, r)).
Qed.

(** *** What the helpers may log *)

Lemma connect_body_emits P :
  (∀ l, P (Out l)) → (∀ p, P (Drv (EConnect p))) → emits P connect_body.
Proof. intros ??. unfold connect_body. walk; auto. Qed.

Lemma connect_to_database_emits P :
  (∀ l, P (Out l)) → (∀ p, P (Drv (EConnect p))) →
  P (Enter "connect_to_database") → emits P connect_to_database.
Proof. intros ???. unfold connect_to_database. walk; auto. Qed.

Lemma table_structure_body_emits P conn :
  admits_queries P → emits P (table_structure_body conn).
Proof. intros (? & ? & ? & ? & ?). unfold table_structure_body. walk; auto. Qed.

Lemma check_table_structure_emits P conn :
  admits_queries P → P (Enter "check_table_structure") →
  emits P (check_table_structure conn).
Proof. intros (? & ? & ? & ? & ?) ?. unfold check_table_structure. walk; auto. Qed.

Lemma recent_questions_body_emits P conn W :
  admits_queries P → emits P (recent_questions_body conn W).
Proof. intros (? & ? & ? & ? & ?). unfold recent_questions_body. walk; auto using show_metadata_emits. Qed.

Lemma check_recent_questions_emits P conn W :
  admits_queries P → P (Enter "check_recent_questions") →
  emits P (check_recent_questions conn W).
Proof. intros (? & ? & ? & ? & ?) ?. unfold check_recent_questions. walk; auto using show_metadata_emits. Qed.

Lemma all_questions_body_emits P conn N :
  admits_queries P → emits P (all_questions_body conn N).
Proof. intros (? & ? & ? & ? & ?). unfold all_questions_body. walk; auto using show_metadata_emits. Qed.

Lemma check_all_questions_emits P conn N :
  admits_queries P → P (Enter "check_all_questions") →
  emits P (check_all_questions conn N).
Proof. intros (? & ? & ? & ? & ?) ?. unfold check_all_questions. walk; auto using show_metadata_emits. Qed.

Lemma database_summary_emits P conn :
  admits_queries P → emits P (database_summary conn).
Proof. intros (? & ? & ? & ? & ?). unfold database_summary. walk; auto. Qed.

Lemma main_recent_emits P conn :
  admits_queries P → P (Enter "check_table_structure") →
  P (Enter "check_recent_questions") → emits P (main_recent conn).
Proof. intros (? & ? & ? & ? & ?) ??. unfold main_recent. walk; auto using show_metadata_emits. Qed.

Lemma main_connect_emits P :
  (∀ l, P (Out l)) → (∀ p, P (Drv (EConnect p))) →
  P (Enter "connect_to_database") → emits P main_connect.
Proof. intros ???. unfold main_connect. walk; auto. Qed.

(** *** The helpers end well *)

Lemma connect_to_database_safe : safe connect_to_database.
Proof. unfold connect_to_database. walk. Qed.

Lemma check_table_structure_safe conn : safe (check_table_structure conn).
Proof. unfold check_table_structure. walk. Qed.

Lemma check_recent_questions_safe conn W : safe (check_recent_questions conn W).
Proof. unfold check_recent_questions. walk. Qed.

Lemma check_all_questions_safe conn N : safe (check_all_questions conn N).
Proof. unfold check_all_questions. walk. Qed.

Lemma main_connect_safe : safe main_connect.
Proof. unfold main_connect. walk. Qed.

Lemma main_recent_safe conn : safe (main_recent conn).
Proof. unfold main_recent. walk. Qed.

Lemma main_queries_safe conn : safe (main_queries conn).
Proof. unfold main_queries. walk. Qed.

(** *** The answers of the query helpers *)

Lemma admits_queries_True : admits_queries (λ _, True).
Proof. by repeat split. Qed.

Lemma check_recent_questions_run conn W e s :
  ∃ rows d,
    check_recent_questions conn W e s = (Ok rows, (s ++ d)%list)
    ∧ (rows = [] ∨
       run_query (database e) (db_now e) (QRecent (utcnow e - W * us_per_hour))
       = Ok rows)
    ∧ (∀ r, r ∈ rows → Out (text_line (r_question_text r)) ∈ d).
Proof.
  unfold check_recent_questions. run_unfold.
  destruct (recent_questions_body conn W e _) as [[rows|x] s1] eqn:Hb.
  - apply recent_questions_body_ok in Hb as (Hq & d & -> & Hin).
    exists rows, (Enter "check_recent_questions" :: d).
    unfold record. rewrite <-app_assoc. split_and!; [done|by right|].
    intros r Hr. right. by apply Hin.
  - destruct (recent_questions_body_emits (λ _, True) conn W admits_queries_True
                e (record s (Enter "check_recent_questions")))
      as (r & d & Hd & _).
    rewrite Hb in Hd. injection Hd as _ ->.
    eexists [], _. unfold record. rewrite <-!app_assoc.
    split_and!; [done|by left|]. by intros r' ?%elem_of_nil.
Qed.

Lemma check_all_questions_run conn N e s :
  ∃ rows d,
    check_all_questions conn N e s
    = (Ok rows, (s ++ Enter "check_all_questions" :: d)%list)
    ∧ (rows = [] ∨ run_query (database e) (db_now e) (QAll N) = Ok rows)
    ∧ (∀ r, r ∈ rows → Out ("   Text: " +:+ a_question_text r) ∈ d).
Proof.
  unfold check_all_questions. run_unfold.
  destruct (all_questions_body conn N e _) as [[rows|x] s1] eqn:Hb.
  - apply all_questions_body_ok in Hb as (Hq & d & -> & Hin).
    exists rows, d. unfold record. rewrite <-app_assoc.
    split_and!; [done|by right|done].
  - destruct (all_questions_body_emits (λ _, True) conn N admits_queries_True
                e (record s (Enter "check_all_questions")))
      as (r & d & Hd & _).
    rewrite Hb in Hd. injection Hd as _ ->.
    eexists [], _. unfold record. rewrite <-!app_assoc.
    split_and!; [done|by left|]. by intros r' ?%elem_of_nil.
Qed.

Lemma append_empty_r (s : string) : s +:+ "" = s.
Proof.
  induction s as [|c s IH]; [done|].
  change (String c (s +:+ "") = String c s). by rewrite IH.
Qed.

(** * The properties of the specification *)

(** ** Rendering *)

(** C5. In the recency view a question body of more than 100 characters is
    shown as its first 100 characters followed by [...], and a body of at most
    100 characters is shown as it is, with no ellipsis; the line so formed is
    logged for every row that [check_recent_questions] returns. *)
Theorem recent_view_truncates_text conn W e s :
  (∀ q,
     ((100 < String.length q)%nat →
      ∃ first rest, q = first +:+ rest ∧ String.length first = 100%nat
                    ∧ text_line q = "   Text: " +:+ first +:+ "...")
     ∧ ((String.length q ≤ 100)%nat → text_line q = "   Text: " +:+ q))
  ∧ ∃ rows d,
      check_recent_questions conn W e s = (Ok rows, (s ++ d)%list)
      ∧ ∀ r, r ∈ rows → Out (text_line (r_question_text r)) ∈ d.
Proof.
  split.
  - intros q. unfold text_line. split; intros Hq.
    + exists (substring 0 100 q), (substring 100 (String.length q - 100) q).
      split_and!.
      * apply substring_0_split.
      * rewrite substring_0_length. lia.
      * by rewrite bool_decide_true.
    + rewrite bool_decide_false by lia. rewrite substring_0_all by lia.
      by rewrite append_empty_r.
  - destruct (check_recent_questions_run conn W e s) as (rows & d & ? & _ & ?).
    by exists rows, d.
Qed.

(** C9. A row whose metadata is absent or empty (a false value such as [None]
    or the empty string) gets no metadata output at all: what the recency
    view and the fallback view log for it is exactly the fixed lines of the
    row, none of which is a placeholder line or a raw-metadata line. *)
Theorem empty_metadata_prints_nothing m :
  truthy m = false →
  (∀ e s, show_metadata m e s = (Ok tt, s))
  ∧ (∀ i r e s, r_metadata r = m →
       show_recent i r e s = (Ok tt, (s ++ recent_lines i r)%list))
  ∧ (∀ i r e s, a_metadata r = m →
       show_all i r e s = (Ok tt, (s ++ all_lines i r)%list))
  ∧ (∀ label,
       label ∈ ["   Source:"; "   Category:"; "   Difficulty:"; "   Metadata:"] →
       (∀ i r, Forall (λ x, is_line label x = false) (recent_lines i r))
       ∧ (∀ i r, Forall (λ x, is_line label x = false) (all_lines i r))).
Proof.
  intros Hm. split_and!.
  - intros e s. by apply show_metadata_falsy.
  - intros i r e s <-. rewrite show_recent_log. by apply show_metadata_falsy.
  - intros i r e s <-. rewrite show_all_log. by apply show_metadata_falsy.
  - intros label Hl. unfold recent_lines, all_lines, text_line.
    repeat (apply elem_of_cons in Hl as [->|Hl]); [..|by apply elem_of_nil in Hl];
      split; intros i r; repeat constructor.
Qed.

(** C6, as amended. When the metadata of a row is not empty and does not
    parse as a dictionary, the raw value is shown, a string as it is, and the
    row ends well; when it is not empty and parses as a dictionary, the three
    fields are shown, with [unknown] for each key the dictionary lacks. *)
Theorem metadata_display m e s :
  truthy m = true →
  ((∀ d, parse_metadata m ≠ Ok (PDict d)) →
     show_metadata m e s = (Ok tt, (s ++ [Out ("   Metadata: " +:+ py_str m)])%list)
     ∧ ∀ t, m = PStr t → py_str m = t)
  ∧ (∀ d, parse_metadata m = Ok (PDict d) →
       show_metadata m e s = (Ok tt, (s ++ dict_lines d)%list)
       ∧ ∀ label key, dict_lookup key d = None →
           field_line label key d = Out ("   " +:+ label +:+ ": unknown")).
Proof.
  intros Hm. split.
  - intros Hp. split; [by apply show_metadata_raw | by intros t ->].
  - intros d Hp. split; [by apply show_metadata_dict|].
    intros label key Hk. unfold field_line. by rewrite Hk.
Qed.

(** ** Connection *)

(** C10. When [DB_PORT] holds text that is not an integer, the helper catches
    the error of [int], prints the failure line and answers [None]; the run
    ends well with no call into the driver at all. *)
Theorem bad_port_is_a_connection_failure e s t :
  environ e !! "DB_PORT" = Some t → py_int t = None →
  let line :=
    Out ("❌ Database connection failed: "
         +:+ "invalid literal for int() with base 10: " +:+ str_repr t) in
  connect_to_database e s = (Ok None, (s ++ [Enter "connect_to_database"; line])%list)
  ∧ ∃ d, main e s = (Ok tt, (s ++ d)%list) ∧ line ∈ d
         ∧ Forall (λ x, is_drv x = false) d.
Proof.
  intros Henv Hparse line.
  assert (∀ s0, connect_to_database e s0
                = (Ok None, (s0 ++ [Enter "connect_to_database"; line])%list)) as Hc.
  { intros s0. unfold connect_to_database, connect_body, getenv, int. run_unfold.
    rewrite Henv. simpl. rewrite Hparse. unfold record. by rewrite <-app_assoc. }
  split; [apply Hc|].
  eexists. unfold main, main_connect. run_unfold. rewrite Hc.
  unfold record. rewrite <-!app_assoc. simpl. split_and!; [done|set_solver|].
  by repeat constructor.
Qed.

(** C1. Whatever the configuration, when the connection helper answers
    [None] the run ends there, without an exception: the log is the one the
    helper left, the only driver calls in it are attempts to connect, and no
    statement has been sent. *)
Theorem no_connection_no_query e s s1 :
  main_connect e s = (Ok None, s1) →
  main e s = (Ok tt, s1)
  ∧ count is_query s1 = count is_query s
  ∧ ∃ d, s1 = (s ++ d)%list
         ∧ Forall (λ x, ∀ ev, x = Drv ev → ∃ p, ev = EConnect p) d.
Proof.
  intros Hc. split_and!.
  - unfold main. run_unfold. by rewrite Hc.
  - destruct (main_connect_emits (λ x, is_query x = false)
                ltac:(done) ltac:(done) ltac:(done) e s) as (r & d & Hd & HP).
    rewrite Hc in Hd. injection Hd as _ ->.
    rewrite count_app, (count_none _ d) by done. lia.
  - destruct (main_connect_emits
                (λ x, ∀ ev, x = Drv ev → ∃ p, ev = EConnect p)) with (e:=e) (s:=s)
      as (r & d & Hd & HP); [done|by intros p ev [= <-]; eexists|done|].
    rewrite Hc in Hd. injection Hd as _ ->. by exists d.
Qed.

(** ** The two queries *)

(** C2. Whatever the window [W], every row [check_recent_questions] returns
    comes from a row of the table whose type is [question] and whose timestamp
    is not before the current time less [W] hours; the rows are in descending
    order of timestamp; and the answer is empty when no row of the table
    matches. *)
Theorem recent_questions_are_recent conn W e s :
  ∃ rows s',
    check_recent_questions conn W e s = (Ok rows, s')
    ∧ (∀ r, r ∈ rows →
         utcnow e - W * us_per_hour ≤ r_timestamp r
         ∧ ∃ table m, interview_messages (database e) = Some table ∧ m ∈ table
                      ∧ message_type m = "question"
                      ∧ r = to_recent_row (db_now e) m)
    ∧ StronglySorted (λ a b, r_timestamp b ≤ r_timestamp a) rows
    ∧ ((∀ table m, interview_messages (database e) = Some table → m ∈ table →
          ¬ (message_type m = "question"
             ∧ utcnow e - W * us_per_hour ≤ msg_timestamp m)) →
       rows = []).
Proof.
  destruct (check_recent_questions_run conn W e s) as (rows & d & Hrun & Hq & _).
  exists rows, (s ++ d)%list. split; [done|].
  assert (∀ r, r ∈ rows →
            utcnow e - W * us_per_hour ≤ r_timestamp r
            ∧ ∃ table m, interview_messages (database e) = Some table ∧ m ∈ table
                         ∧ message_type m = "question"
                         ∧ r = to_recent_row (db_now e) m) as Hrows.
  { destruct Hq as [->|Hq]; [by intros r ?%elem_of_nil|].
    by apply run_query_recent in Hq as [? _]. }
  split_and!; [done| |].
  - destruct Hq as [->|Hq]; [constructor|].
    by apply run_query_recent in Hq as [_ ?].
  - intros Hnone. destruct rows as [|r rows]; [done|].
    destruct (Hrows r) as (Ht & table & m & Htable & Hm & Hty & ->); [by left|].
    by destruct (Hnone table m Htable Hm).
Qed.

Lemma show_metadata_no_time_ago m :
  emits (λ x, is_line "   Time ago:" x = false) (show_metadata m).
Proof. unfold show_metadata. walk; reflexivity. Qed.

Lemma check_all_questions_no_time_ago conn N :
  emits (λ x, is_line "   Time ago:" x = false) (check_all_questions conn N).
Proof.
  unfold check_all_questions, all_questions_body. walk;
    first [reflexivity | apply show_metadata_no_time_ago].
Qed.

(** C4. Whatever the limit [N], [check_all_questions] returns at most [N]
    rows (none when [N] is negative), each from a row of the table whose type
    is [question], in descending order of timestamp; for each of them the text
    line logged holds the whole content, and no line of elapsed hours is
    logged. *)
Theorem all_questions_are_limited conn N e s :
  ∃ rows d,
    check_all_questions conn N e s = (Ok rows, (s ++ d)%list)
    ∧ Z.of_nat (length rows) ≤ Z.max 0 N
    ∧ (∀ r, r ∈ rows →
         ∃ table m, interview_messages (database e) = Some table ∧ m ∈ table
                    ∧ message_type m = "question" ∧ r = to_all_row m)
    ∧ StronglySorted (λ a b, a_timestamp b ≤ a_timestamp a) rows
    ∧ (∀ r, r ∈ rows → Out ("   Text: " +:+ a_question_text r) ∈ d)
    ∧ Forall (λ x, is_line "   Time ago:" x = false) d.
Proof.
  destruct (check_all_questions_run conn N e s) as (rows & d & Hrun & Hq & Hin).
  exists rows, (Enter "check_all_questions" :: d). split; [done|].
  assert (Forall (λ x, is_line "   Time ago:" x = false)
            (Enter "check_all_questions" :: d)) as Hquiet.
  { destruct (check_all_questions_no_time_ago conn N e s) as (r & d' & Hd & HP).
    rewrite Hrun in Hd. injection Hd as _ Hd. by apply app_inv_head in Hd as ->. }
  destruct Hq as [->|Hq].
  - split_and!; [simpl; lia|by intros r ?%elem_of_nil|constructor| |done].
    by intros r ?%elem_of_nil.
  - apply run_query_all in Hq as (? & ? & ?). split_and!; [done..| |done].
    intros r Hr. right. by apply Hin.
Qed.

(** ** Orchestration *)

Lemma count_emits {A} p (m : M A) e s r s' :
  emits (λ x, p x = false) m → m e s = (r, s') → count p s' = count p s.
Proof.
  intros Hm Hrun. destruct (Hm e s) as (r' & d & Hd & HP).
  rewrite Hrun in Hd. injection Hd as _ ->.
  rewrite count_app, (count_none _ d) by done. lia.
Qed.

(** Once the guarded steps have ended, the rest of the run is the summary
    followed by the clean-up. *)
Lemma main_after_queries conn e s s2 :
  main_queries conn e s = (Ok tt, s2) →
  try_finally (main_try conn) (main_finally conn) e s
  = try_finally (database_summary conn) (main_finally conn) e s2.
Proof. intros H. unfold try_finally, main_try. run_unfold. by rewrite H. Qed.

Lemma main_queries_emits P conn :
  admits_queries P → P (Enter "check_table_structure") →
  P (Enter "check_recent_questions") → P (Enter "check_all_questions") →
  emits P (main_queries conn).
Proof.
  intros (? & ? & ? & ? & ?) ???. unfold main_queries, main_recent.
  walk; auto using show_metadata_emits.
Qed.

Lemma main_finally_emits P conn :
  (∀ l, P (Out l)) → P (Drv EClose) → emits P (main_finally conn).
Proof. intros ??. unfold main_finally. walk; auto. Qed.

(** The clean-up calls [close] once, first, and only prints afterwards. *)
Lemma main_finally_run conn e s :
  ∃ r tail,
    main_finally conn e s = (r, (s ++ Drv EClose :: tail)%list)
    ∧ Forall (λ x, is_drv x = false) tail
    ∧ (fault e (count is_drv s) = None →
       r = Ok tt ∧ tail = [Out (nl +:+ "🔒 Database connection closed")])
    ∧ (∀ x, fault e (count is_drv s) = Some x → r = Raise x).
Proof.
  unfold main_finally, conn_close. run_unfold.
  destruct (fault e (count is_drv s)) as [x|]; eexists _, _; unfold record;
    rewrite <-?app_assoc; simpl; (split_and!; [done|by repeat constructor|..]).
  - done.
  - by intros x' [= <-].
  - done.
  - done.
Qed.

Lemma check_all_questions_entered conn N e s :
  ∃ rows s',
    check_all_questions conn N e s = (Ok rows, s')
    ∧ count (is_enter "check_all_questions") s'
      = S (count (is_enter "check_all_questions") s).
Proof.
  unfold check_all_questions. run_unfold.
  destruct (all_questions_body_emits
              (λ x, is_enter "check_all_questions" x = false) conn N
              ltac:(by repeat split) e
              (record s (Enter "check_all_questions")))
    as (r & d & Hd & HP).
  rewrite Hd. destruct r as [rows|x]; eexists _, _; (split; [done|]).
  all: rewrite ?count_record, count_app, count_record, (count_none _ d) by done.
  all: simpl; lia.
Qed.

(** From the answer of the recency query to the end of the run. *)
Lemma fallback_entered conn e s rows s1 :
  main_recent conn e s = (Ok rows, s1) →
  ∃ r s',
    try_finally (main_try conn) (main_finally conn) e s = (r, s')
    ∧ count (is_enter "check_all_questions") s'
      = (count (is_enter "check_all_questions") s
         + match rows with [] => 1 | _ => 0 end)%nat.
Proof.
  intros Hrec.
  set (quiet := λ x, is_enter "check_all_questions" x = false).
  assert (count (is_enter "check_all_questions") s1
          = count (is_enter "check_all_questions") s) as Hs1.
  { destruct (main_recent_emits quiet conn ltac:(by repeat split)
                ltac:(done) ltac:(done) e s) as (r & d & Hd & HP).
    rewrite Hrec in Hd. injection Hd as _ ->.
    rewrite count_app, (count_none _ d) by done. lia. }
  assert (∃ s2, main_queries conn e s = (Ok tt, s2)
                ∧ count (is_enter "check_all_questions") s2
                  = (count (is_enter "check_all_questions") s
                     + match rows with [] => 1 | _ => 0 end)%nat)
    as (s2 & Hq & Hs2).
  { unfold main_queries. run_unfold. rewrite Hrec. destruct rows as [|row rows].
    - destruct (check_all_questions_entered conn 10 e
                  (record s1 (Out (nl +:+ "3. Checking all questions (last 10)..."))))
        as (rows' & s2 & Hrun & Hcount).
      rewrite Hrun. exists s2. split; [done|].
      rewrite Hcount, count_record, Hs1. simpl. lia.
    - exists s1. split; [done|]. lia. }
  rewrite (main_after_queries _ _ _ _ Hq).
  destruct (emits_try_finally quiet (database_summary conn) (main_finally conn)
              (database_summary_emits quiet conn ltac:(by repeat split))
              (main_finally_emits quiet conn ltac:(done) ltac:(done)) e s2)
    as (r & d & Hd & HP).
  exists r, (s2 ++ d)%list. split; [done|].
  rewrite count_app, (count_none _ d) by done. lia.
Qed.

(** C3. In a run that has got a connection, the fallback query is entered
    exactly once when the recency query has returned an empty sequence, and is
    not entered at all when it has returned a row. *)
Theorem fallback_runs_iff_no_recent conn e s s0 rows s1 :
  main_connect e s = (Ok (Some conn), s0) →
  main_recent conn e s0 = (Ok rows, s1) →
  ∃ r s',
    main e s = (r, s')
    ∧ count (is_enter "check_all_questions") s'
      = (count (is_enter "check_all_questions") s
         + match rows with [] => 1 | _ => 0 end)%nat.
Proof.
  intros Hc Hrec.
  assert (main e s = try_finally (main_try conn) (main_finally conn) e s0) as ->.
  { unfold main. run_unfold. by rewrite Hc. }
  destruct (fallback_entered conn e s0 rows s1 Hrec) as (r & s' & Hrun & Hcount).
  exists r, s'. split; [done|]. rewrite Hcount. f_equal.
  eapply (count_emits (is_enter "check_all_questions")); [|done].
  by apply main_connect_emits.
Qed.

(** C7. In a run that has got a connection, [close] is called exactly once,
    however the run ends.  The three guarded steps never raise; when the
    summary step raises, nothing catches the exception: the clean-up still
    calls [close], right after the failure, and the run ends with the
    exception (or with the one [close] itself raises). *)
Theorem connection_is_closed_once conn e s s1 :
  main_connect e s = (Ok (Some conn), s1) →
  (∃ r s', main e s = (r, s')
           ∧ count is_close s' = S (count is_close s))
  ∧ ∃ s2, main_queries conn e s1 = (Ok tt, s2)
          ∧ ∀ x s3, database_summary conn e s2 = (Raise x, s3) →
              ∃ x' tail,
                main e s = (Raise x', (s3 ++ Drv EClose :: tail)%list)
                ∧ Forall (λ y, is_drv y = false) tail
                ∧ (fault e (count is_drv s3) = None → x' = x).
Proof.
  intros Hc.
  set (quiet := λ x, is_close x = false).
  assert (main e s = try_finally (main_try conn) (main_finally conn) e s1) as ->.
  { unfold main. run_unfold. by rewrite Hc. }
  destruct (main_queries_safe conn e s1) as ([] & s2 & Hq).
  rewrite (main_after_queries _ _ _ _ Hq).
  assert (count is_close s2 = count is_close s) as Hs2.
  { destruct (main_connect_emits quiet ltac:(done) ltac:(done) ltac:(done) e s)
      as (r & d & Hd & HP).
    rewrite Hc in Hd. injection Hd as _ ->.
    destruct (main_queries_emits quiet conn ltac:(by repeat split)
                ltac:(done) ltac:(done) ltac:(done) e (s ++ d)%list)
      as (r' & d' & Hd' & HP').
    rewrite Hq in Hd'. injection Hd' as _ ->.
    rewrite !count_app, (count_none _ d), (count_none _ d') by done. lia. }
  unfold try_finally.
  destruct (database_summary conn e s2) as [r3 s3] eqn:Hsum.
  assert (count is_close s3 = count is_close s) as Hs3.
  { destruct (database_summary_emits quiet conn ltac:(by repeat split) e s2)
      as (r & d & Hd & HP).
    rewrite Hsum in Hd. injection Hd as _ ->.
    rewrite count_app, (count_none _ d) by done. lia. }
  destruct (main_finally_run conn e s3) as (rf & tail & Hf & Htail & Hok & Hfail).
  rewrite Hf. split.
  - assert (count is_close (s3 ++ Drv EClose :: tail)%list = S (count is_close s))
      as Hcount.
    { rewrite count_app, Hs3. change (Drv EClose :: tail) with ([Drv EClose] ++ tail)%list.
      rewrite count_app, (count_none is_close tail); [simpl; lia|].
      eapply Forall_impl; [done|]. by intros [| |]. }
    destruct rf as [[]|xf]; eauto.
  - exists s2. split; [done|]. intros x s3' Hx. rewrite Hsum in Hx. simplify_eq.
    destruct rf as [[]|xf].
    + exists x, tail. split_and!; [done..].
    + exists xf, tail. split_and!; [done..|].
      intros Hnone. by destruct (Hok Hnone).
Qed.

(** ** Failures of a query *)

Lemma check_table_structure_entered conn e s r s' :
  check_table_structure conn e s = (r, s') →
  count (is_enter "check_table_structure") s'
  = S (count (is_enter "check_table_structure") s).
Proof.
  unfold check_table_structure. run_unfold.
  destruct (table_structure_body conn e _) as [[[]|x] s1] eqn:Hb; intros [= _ <-].
  all: eapply (count_emits (is_enter "check_table_structure")) in Hb;
    [|by apply table_structure_body_emits; repeat split].
  all: rewrite ?count_record, Hb, count_record; simpl; lia.
Qed.

Lemma check_recent_questions_entered conn W e s r s' :
  check_recent_questions conn W e s = (r, s') →
  count (is_enter "check_recent_questions") s'
  = S (count (is_enter "check_recent_questions") s).
Proof.
  unfold check_recent_questions. run_unfold.
  destruct (recent_questions_body conn W e _) as [[rows|x] s1] eqn:Hb;
    intros [= _ <-].
  all: eapply (count_emits (is_enter "check_recent_questions")) in Hb;
    [|by apply recent_questions_body_emits; repeat split].
  all: rewrite ?count_record, Hb, count_record; simpl; lia.
Qed.

(** C8. A failure inside schema introspection, the recency query or the
    fallback query is caught in that helper: the helper prints the error line
    with the message of the exception, answers with nothing (an empty
    sequence), and ends well; a failing [execute] is such a failure.  When the
    catalogue has no column for the table, schema introspection prints that
    the table is not found and ends well.  Whatever fails, the guarded steps
    of the run all take place, none raises, and the summary step comes
    next. *)
Theorem query_failures_are_absorbed conn e s :
  (∀ x s1,
     table_structure_body conn e (record s (Enter "check_table_structure"))
     = (Raise x, s1) →
     check_table_structure conn e s
     = (Ok tt, record s1 (Out ("❌ Error checking table structure: " +:+ exn_msg x))))
  ∧ (∀ W x s1,
       recent_questions_body conn W e (record s (Enter "check_recent_questions"))
       = (Raise x, s1) →
       check_recent_questions conn W e s
       = (Ok [], record s1 (Out ("❌ Error querying questions: " +:+ exn_msg x))))
  ∧ (∀ N x s1,
       all_questions_body conn N e (record s (Enter "check_all_questions"))
       = (Raise x, s1) →
       check_all_questions conn N e s
       = (Ok [], record s1 (Out ("❌ Error querying questions: " +:+ exn_msg x))))
  ∧ (∀ x,
       fault e (count is_drv s) = None →
       fault e (S (count is_drv s)) = Some x →
       check_table_structure conn e s
       = (Ok tt,
          (s ++ [ Enter "check_table_structure"; Drv ECursor;
                  Drv (EExecute QColumns);
                  Out ("❌ Error checking table structure: " +:+ exn_msg x) ])%list)
       ∧ (∀ W delta t,
            timedelta W = Ok delta → datetime_sub (utcnow e) delta = Ok t →
            check_recent_questions conn W e s
            = (Ok [],
               (s ++ [ Enter "check_recent_questions"; Drv ECursor;
                       Drv (EExecute (QRecent t));
                       Out ("❌ Error querying questions: " +:+ exn_msg x) ])%list))
       ∧ (∀ N,
            check_all_questions conn N e s
            = (Ok [],
               (s ++ [ Enter "check_all_questions"; Drv ECursor;
                       Drv (EExecute (QAll N));
                       Out ("❌ Error querying questions: " +:+ exn_msg x) ])%list)))
  ∧ ((∀ k, fault e k = None) → db_columns (database e) = [] →
     check_table_structure conn e s
     = (Ok tt,
        (s ++ [ Enter "check_table_structure"; Drv ECursor;
                Drv (EExecute QColumns); Drv EFetchall;
                Out "❌ interview_messages table not found" ])%list))
  ∧ ∃ s2,
      main_queries conn e s = (Ok tt, s2)
      ∧ count (is_enter "check_table_structure") s2
        = S (count (is_enter "check_table_structure") s)
      ∧ count (is_enter "check_recent_questions") s2
        = S (count (is_enter "check_recent_questions") s)
      ∧ main_try conn e s = database_summary conn e s2.
Proof.
  split_and!.
  - intros x s1 Hb. unfold check_table_structure. run_unfold. by rewrite Hb.
  - intros W x s1 Hb. unfold check_recent_questions. run_unfold. by rewrite Hb.
  - intros N x s1 Hb. unfold check_all_questions. run_unfold. by rewrite Hb.
  - intros x Hcur Hexe.
    assert (∀ f, fault e (count is_drv (record s (Enter f))) = None) as Hcur'.
    { intros f. rewrite count_record. simpl. by rewrite Nat.add_0_r. }
    assert (∀ f, fault e (count is_drv (record (record s (Enter f)) (Drv ECursor)))
                 = Some x) as Hexe'.
    { intros f. rewrite !count_record. simpl. by rewrite Nat.add_0_r, Nat.add_1_r. }
    split_and!.
    + unfold check_table_structure, table_structure_body. run_unfold.
      rewrite Hcur', Hexe'. unfold record. by rewrite <-!app_assoc.
    + intros W delta t Hd Ht.
      unfold check_recent_questions, recent_questions_body. run_unfold.
      rewrite Hcur', Hd, Ht, Hexe'. unfold record. by rewrite <-!app_assoc.
    + intros N. unfold check_all_questions, all_questions_body. run_unfold.
      rewrite Hcur', Hexe'. unfold record. by rewrite <-!app_assoc.
  - intros Hnone Hcols. unfold check_table_structure, table_structure_body.
    run_unfold. rewrite !Hnone. simpl. rewrite Hcols.
    unfold record. by rewrite <-!app_assoc.
  - destruct (main_queries_safe conn e s) as ([] & s2 & Hq). exists s2.
    split_and!; [done| | |].
    + revert Hq. unfold main_queries, main_recent. run_unfold.
      destruct (check_table_structure conn e _) as [[[]|?] s1] eqn:H1; [|done].
      apply check_table_structure_entered in H1. rewrite count_record in H1.
      destruct (check_recent_questions conn 24 e _) as [[rows|?] s3] eqn:H3; [|done].
      eapply (count_emits (is_enter "check_table_structure")) in H3;
        [|by apply check_recent_questions_emits; repeat split].
      rewrite count_record in H3. simpl in *.
      destruct rows as [|row rows].
      * destruct (check_all_questions conn 10 e _) as [[rows'|?] s4] eqn:H4; [|done].
        eapply (count_emits (is_enter "check_table_structure")) in H4;
          [|by apply check_all_questions_emits; repeat split].
        rewrite count_record in H4. simpl in *. intros [= <-]. lia.
      * intros [= <-]. lia.
    + revert Hq. unfold main_queries, main_recent. run_unfold.
      destruct (check_table_structure conn e _) as [[[]|?] s1] eqn:H1; [|done].
      eapply (count_emits (is_enter "check_recent_questions")) in H1;
        [|by apply check_table_structure_emits; repeat split].
      rewrite count_record in H1.
      destruct (check_recent_questions conn 24 e _) as [[rows|?] s3] eqn:H3; [|done].
      apply check_recent_questions_entered in H3.
      rewrite count_record in H3. simpl in *.
      destruct rows as [|row rows].
      * destruct (check_all_questions conn 10 e _) as [[rows'|?] s4] eqn:H4; [|done].
        eapply (count_emits (is_enter "check_recent_questions")) in H4;
          [|by apply check_all_questions_emits; repeat split].
        rewrite count_record in H4. simpl in *. intros [= <-]. lia.
      * intros [= <-]. lia.
    + unfold main_try. run_unfold. by rewrite Hq.
Qed.
End facts.

(** * Concrete runs *)

(** The metadata of the specification's example: the two keys present are
    shown, the missing one reads [unknown]. *)
Lemma metadata_display_witness :
  truthy (PStr sample_metadata) = true
  ∧ show_metadata (decoder := json_fragment_loads) (PStr sample_metadata) quiet_env []
    = (Ok tt, [ Out "   Source: llm"; Out "   Category: algorithms";
                Out "   Difficulty: unknown" ]).
Proof.
  split; [reflexivity|].
  destruct (metadata_display (decoder := json_fragment_loads)
              (PStr sample_metadata) quiet_env [] eq_refl) as [_ H].
  destruct (H [("source", PStr "llm"); ("category", PStr "algorithms")] eq_refl)
    as [-> _].
  reflexivity.
Defined.

(** C6 as it is worded fails on empty metadata: the empty string does not
    parse, yet its raw value is not shown; the empty dictionary is a map that
    lacks the three keys, yet no placeholder is shown. *)
Lemma metadata_display_counterexample :
  ((∀ d, parse_metadata (decoder := json_fragment_loads) (PStr "") ≠ Ok (PDict d))
   ∧ show_metadata (decoder := json_fragment_loads) (PStr "") quiet_env []
     ≠ (Ok tt, [Out ("   Metadata: " +:+ py_str (PStr ""))]))
  ∧ (parse_metadata (decoder := json_fragment_loads) (PDict []) = Ok (PDict [])
     ∧ show_metadata (decoder := json_fragment_loads) (PDict []) quiet_env []
       ≠ (Ok tt, dict_lines [])).
Proof. by repeat split. Qed.

Lemma empty_metadata_prints_nothing_witness :
  truthy (PStr "") = false
  ∧ show_metadata (decoder := json_fragment_loads) (PStr "") quiet_env [] = (Ok tt, []).
Proof.
  split; [reflexivity|].
  apply (empty_metadata_prints_nothing (decoder := json_fragment_loads) (PStr "")).
  reflexivity.
Defined.

Lemma bad_port_is_a_connection_failure_witness :
  environ bad_port_env !! "DB_PORT" = Some "54x2" ∧ py_int "54x2" = None
  ∧ connect_to_database bad_port_env []
    = (Ok None,
       [ Enter "connect_to_database";
         Out ("❌ Database connection failed: "
              +:+ "invalid literal for int() with base 10: '54x2'") ]).
Proof.
  split; [reflexivity|]. split; [reflexivity|].
  apply (bad_port_is_a_connection_failure (decoder := json_fragment_loads)
           bad_port_env [] "54x2"); reflexivity.
Defined.

Lemma no_connection_no_query_witness :
  main_connect refusing_env [] = (Ok None, refused_log)
  ∧ run_main refusing_env [] = (Ok tt, refused_log)
  ∧ count is_query refused_log = 0%nat.
Proof.
  split; [reflexivity|].
  destruct (no_connection_no_query (decoder := json_fragment_loads)
              refusing_env [] refused_log eq_refl) as (Hrun & Hcount & _).
  split; [exact Hrun | exact Hcount].
Defined.

Lemma fallback_runs_iff_no_recent_witness :
  main_connect empty_env [] = (Ok (Some sample_conn), connected_log)
  ∧ main_recent (decoder := json_fragment_loads) sample_conn empty_env connected_log
    = (Ok [], (connected_log ++ empty_recent_log)%list)
  ∧ ∃ r s',
      run_main empty_env [] = (r, s')
      ∧ count (is_enter "check_all_questions") s' = 1%nat.
Proof.
  split; [reflexivity|]. split; [reflexivity|].
  apply (fallback_runs_iff_no_recent (decoder := json_fragment_loads)
           sample_conn empty_env [] connected_log []
           (connected_log ++ empty_recent_log)%list); reflexivity.
Defined.

Lemma connection_is_closed_once_witness :
  main_connect quiet_env [] = (Ok (Some sample_conn), connected_log)
  ∧ ∃ r s', run_main quiet_env [] = (r, s') ∧ count is_close s' = 1%nat.
Proof.
  split; [reflexivity|].
  apply (connection_is_closed_once (decoder := json_fragment_loads)
           sample_conn quiet_env [] connected_log).
  reflexivity.
Defined.

(** The scenario of the specification: of three questions written 1, 5 and 30
    hours ago, a window of 24 hours returns the first two, the newest first;
    the fallback query is then not entered. *)
Example recent_scenario :
  (check_recent_questions (decoder := json_fragment_loads) sample_conn 24
     quiet_env []).1
  = Ok [to_recent_row sample_now question_1h; to_recent_row sample_now question_5h]
  ∧ count (is_enter "check_all_questions") (run_main quiet_env []).2 = 0%nat.
Proof. split; vm_compute; reflexivity. Qed.

(** The scenario of the empty table: the recency query and the fallback query
    both return nothing, and the summary counts no question. *)
Example empty_table_scenario :
  (check_recent_questions (decoder := json_fragment_loads) sample_conn 24
     empty_env []).1 = Ok []
  ∧ (check_all_questions (decoder := json_fragment_loads) sample_conn 10
       empty_env []).1 = Ok []
  ∧ (run_main empty_env []).1 = Ok tt
  ∧ Out "   Total Questions: 0" ∈ (run_main empty_env []).2.
Proof. split_and!; [vm_compute; reflexivity..|]. vm_compute. set_solver. Qed.

(** A limit of 2 keeps the two newest questions, shown in full. *)
Example fallback_scenario :
  (check_all_questions (decoder := json_fragment_loads) sample_conn 2
     quiet_env []).1
  = Ok [to_all_row question_1h; to_all_row question_5h]
  ∧ (check_all_questions (decoder := json_fragment_loads) sample_conn (-1)
       quiet_env []).1 = Ok []
  ∧ Out ("   Text: " +:+ str_mul "x" 101)
    ∈ (check_all_questions (decoder := json_fragment_loads) sample_conn 10
         quiet_env []).2.
Proof. split_and!; [vm_compute; reflexivity..|]. vm_compute. set_solver. Qed.

(** A body of 101 characters is cut to 100 and marked; a short one is not. *)
Example truncation_scenario :
  text_line (str_mul "x" 101) = "   Text: " +:+ str_mul "x" 100 +:+ "..."
  ∧ text_line "What is a heap?" = "   Text: What is a heap?".
Proof. split; reflexivity. Qed.

(** The table is missing: each of the three guarded steps reports and the run
    goes on; the first count then fails, nothing catches it, and the
    connection is closed before the run ends with that exception. *)
Example missing_table_scenario :
  (run_main (sample_env ∅ None no_fault) []).1 = Raise undefined_table
  ∧ stdout (run_main (sample_env ∅ None no_fault) []).2
    = [ "🔍 MockMate Database Question Checker";
        str_mul "=" 50;
        "🔗 Connecting to database: mockmate_user@localhost:5432/mockmate_db";
        "✅ Database connection successful!";
        nl +:+ "1. Checking table structure...";
        "📋 interview_messages table structure:";
        str_mul "-" 60;
        "   id                   | uuid            | NOT NULL | gen_random_uuid()";
        "   content              | text            | NOT NULL | ";
        nl +:+ "2. Checking recent questions (last 24 hours)...";
        "❌ Error querying questions: " +:+ exn_msg undefined_table;
        nl +:+ "3. Checking all questions (last 10)...";
        "❌ Error querying questions: " +:+ exn_msg undefined_table;
        nl +:+ "🔒 Database connection closed" ]
  ∧ count is_close (run_main (sample_env ∅ None no_fault) []).2 = 1%nat.
Proof. split_and!; vm_compute; reflexivity. Qed.

(** The link drops at the [execute] of schema introspection: the step
    reports the cause and the later steps still run. *)
Example dropped_link_scenario :
  check_table_structure sample_conn
    (sample_env ∅ (Some sample_table) (fault_at 1 connection_lost)) []
  = (Ok tt,
     [ Enter "check_table_structure"; Drv ECursor; Drv (EExecute QColumns);
       Out ("❌ Error checking table structure: " +:+ exn_msg connection_lost) ])
  ∧ (run_main (sample_env ∅ (Some sample_table) (fault_at 2 connection_lost)) []).1
    = Ok tt
  ∧ count (is_enter "check_recent_questions")
      (run_main (sample_env ∅ (Some sample_table) (fault_at 2 connection_lost)) []).2
    = 1%nat.
Proof. split_and!; vm_compute; reflexivity. Qed.

(** * Further properties of the script *)

Section more.

Context {decoder : Decoder}.

(** ** Connection *)

Lemma count_is_drv_enter s f : count is_drv (record s (Enter f)) = count is_drv s.
Proof. rewrite count_record. simpl. lia. Qed.


Lemma count_is_drv_drv s ev : count is_drv (record s (Drv ev)) = S (count is_drv s).
Proof. rewrite count_record. simpl. lia. Qed.


(** ** The recency query *)




(** X3. With synchronised clocks, no row of the recency view is shown as
    older than the window: the hours elapsed of every returned row are at
    most [W]. *)
Theorem recent_rows_are_within_the_window conn W e s :
  utcnow e = db_now e →
  ∃ rows s',
    check_recent_questions conn W e s = (Ok rows, s')
    ∧ ∀ r, r ∈ rows → (r_hours_ago r <= inject_Z W)%Q.
Proof.
  intros Hclock.
  destruct (check_recent_questions_run conn W e s) as (rows & d & Hrun & Hq & _).
  exists rows, (s ++ d)%list. split; [done|].
  destruct Hq as [->|Hq]; [by intros r ?%elem_of_nil|].
  apply run_query_recent in Hq as [Hrows _].
  intros r Hr. destruct (Hrows r Hr) as (Ht & table & m & _ & _ & _ & ->).
  simpl in *. unfold Qle. simpl. unfold us_per_hour in Ht. lia.
Qed.

(** ** The fallback query *)



Lemma length_filter_both {A} (p q : A → bool) (l : list A) :
  (length (filter (λ x, p x && q x) l) ≤ length (filter p l))%nat.
Proof.
  induction l as [|x l IH]; [done|]. rewrite !filter_cons.
  destruct (decide (p x && q x)) as [Hb|Hb], (decide (p x)) as [Hp|Hp];
    simpl; try lia.
  apply andb_True in Hb as [? _]. done.
Qed.

(** X5. The recency view never shows more rows than the table holds
    questions, the number the summary reports as the total. *)
Theorem recent_rows_are_counted conn W e s table :
  interview_messages (database e) = Some table →
  ∃ rows s',
    check_recent_questions conn W e s = (Ok rows, s')
    ∧ (length rows ≤ length (filter (is_type "question") table))%nat.
Proof.
  intros Htable.
  destruct (check_recent_questions_run conn W e s) as (rows & d & Hrun & Hq & _).
  exists rows, (s ++ d)%list. split; [done|].
  destruct Hq as [->|Hq]; [simpl; lia|].
  simpl in Hq. rewrite Htable in Hq. injection Hq as <-.
  unfold order_by_timestamp_desc.
  rewrite length_fmap, merge_sort_Permutation.
  apply (length_filter_both (is_type "question")).
Qed.

(** ** Lines *)

Lemma length_append (a b : string) :
  String.length (a +:+ b) = (String.length a + String.length b)%nat.
Proof.
  induction a as [|c a IH]; [done|].
  change (S (String.length (a +:+ b)) = S (String.length a + String.length b)).
  by rewrite IH.
Qed.

Lemma length_str_mul (c : ascii) (n : nat) :
  String.length (str_mul (String c "") n) = n.
Proof.
  induction n as [|n IH]; [done|].
  change (S (String.length (str_mul (String c "") n)) = S n). by rewrite IH.
Qed.

Lemma length_ljust (w : nat) (s : string) :
  String.length (ljust w s) = Nat.max w (String.length s).
Proof.
  unfold ljust. rewrite length_append.
  change " " with (String " "%char ""). rewrite length_str_mul. lia.
Qed.

(** X6. The text line of the recency view is never longer than 112
    characters: the label, at most 100 characters of the body and the
    ellipsis. *)
Theorem recent_text_line_is_bounded q :
  String.length (text_line q)
  = (9 + (if bool_decide (100 < String.length q)%nat then 103
          else String.length q))%nat
  ∧ (String.length (text_line q) ≤ 112)%nat.
Proof.
  assert (String.length (text_line q)
          = (9 + (if bool_decide (100 < String.length q)%nat then 103
                  else String.length q))%nat) as Hlen.
  { unfold text_line. rewrite !length_append, substring_0_length.
    change (String.length "   Text: ") with 9%nat.
    case_bool_decide;
      [change (String.length "...") with 3%nat
      |change (String.length "") with 0%nat]; lia. }
  split; [done|]. rewrite Hlen. case_bool_decide; lia.
Qed.

(** X7. A line of the table structure is made of three cells and the
    default, separated by bars: the name cell is 20 wide, the type cell
    15, wider only when the name or the type is longer (nothing is cut), and
    the nullability cell is always 8 wide and reads [NULL] only for the
    answer [YES]. *)
Theorem column_line_is_aligned c :
  ∃ name type null,
    column_line c
    = "   " +:+ name +:+ " | " +:+ type +:+ " | " +:+ null +:+ " | "
      +:+ default "" (column_default c)
    ∧ String.length name = Nat.max 20 (String.length (column_name c))
    ∧ String.length type = Nat.max 15 (String.length (data_type c))
    ∧ String.length null = 8%nat
    ∧ String.prefix (column_name c) name = true
    ∧ String.prefix (data_type c) type = true
    ∧ null = (if bool_decide (is_nullable c = "YES") then "NULL    " else "NOT NULL").
Proof.
  exists (ljust 20 (column_name c)), (ljust 15 (data_type c)),
    (ljust 8 (if bool_decide (is_nullable c = "YES") then "NULL" else "NOT NULL")).
  assert (∀ a b, String.prefix a (a +:+ b) = true) as Hpre.
  { intros a b. induction a as [|x a IH]; simpl; [by destruct b|].
    destruct (ascii_dec x x); [done|congruence]. }
  split_and!; [done|apply length_ljust..| |apply Hpre|apply Hpre|].
  - rewrite length_ljust. by case_bool_decide.
  - by case_bool_decide.
Qed.

(** ** Schema introspection *)

Lemma for_each_print {A} (line : A → string) (body : A → M unit) (l : list A) e s :
  (∀ a e s, body a e s = (Ok tt, record s (Out (line a)))) →
  for_each l body e s = (Ok tt, (s ++ ((λ a, Out (line a)) <$> l))%list).
Proof.
  intros Hb. revert s. induction l as [|a l IH]; intros s; simpl.
  - by rewrite app_nil_r.
  - unfold bind. rewrite Hb, IH. unfold record. by rewrite <-app_assoc.
Qed.

(** X8. When no driver call fails and the catalogue has columns for the
    table, schema introspection sends its one statement and prints the title,
    the rule and one line per column, in the order of the catalogue. *)
Theorem table_structure_is_listed conn e s :
  (∀ k, fault e k = None) →
  db_columns (database e) ≠ [] →
  check_table_structure conn e s
  = (Ok tt,
     (s ++ [ Enter "check_table_structure"; Drv ECursor;
             Drv (EExecute QColumns); Drv EFetchall;
             Out "📋 interview_messages table structure:";
             Out (str_mul "-" 60) ]
        ++ ((λ c, Out (column_line c)) <$> db_columns (database e)))%list).
Proof.
  intros Hf Hcols. unfold check_table_structure, table_structure_body.
  run_unfold. rewrite !Hf. simpl.
  destruct (db_columns (database e)) as [|c cols] eqn:Hc; [done|].
  rewrite ?Hf, (for_each_print column_line) by done.
  unfold record. by rewrite <-!app_assoc.
Qed.

(** ** The summary *)

Lemma length_filter_types (a b : string) (table : list message) :
  a ≠ b →
  (length (filter (is_type a) table) + length (filter (is_type b) table)
   ≤ length table)%nat.
Proof.
  intros Hab. induction table as [|m table IH]; [done|].
  rewrite !filter_cons.
  destruct (decide (is_type a m)) as [Ha|Ha], (decide (is_type b m)) as [Hb|Hb];
    simpl; try lia.
  apply bool_decide_unpack in Ha, Hb. congruence.
Qed.

(** X9. When no driver call fails and the table exists, the summary ends
    well and reports the number of rows of type [question] and the number of
    rows of type [answer]; rows of another type are in neither, so the two
    numbers add up to at most the size of the table. *)
Theorem summary_counts_the_rows conn e s table :
  (∀ k, fault e k = None) →
  interview_messages (database e) = Some table →
  database_summary conn e s
  = (Ok tt,
     (s ++ [ Drv ECursor;
             Drv (EExecute (QCount "question")); Drv EFetchone;
             Drv (EExecute (QCount "answer")); Drv EFetchone;
             Out (nl +:+ "📊 Database Summary:");
             Out ("   Total Questions: "
                  +:+ pretty (Z.of_nat (length (filter (is_type "question") table))));
             Out ("   Total Answers: "
                  +:+ pretty (Z.of_nat (length (filter (is_type "answer") table))))
           ])%list)
  ∧ (length (filter (is_type "question") table)
     + length (filter (is_type "answer") table) ≤ length table)%nat.
Proof.
  intros Hf Htable. split; [|by apply length_filter_types].
  unfold database_summary, item_0. run_unfold. rewrite !Hf. simpl.
  rewrite Htable. simpl. rewrite ?Hf. simpl.
  unfold record. by rewrite <-!app_assoc.
Qed.

(** ** Metadata as text and as a decoded value *)

(** X10. Metadata that arrives as text and decodes to a dictionary prints
    the same three lines as the dictionary itself would, with one exception:
    the text of the empty dictionary prints three placeholders, while the
    empty dictionary itself, being a false value, prints nothing. *)
Theorem text_and_decoded_metadata s d e st :
  s ≠ "" →
  json_loads s = Ok (PDict d) →
  show_metadata (PStr s) e st = (Ok tt, (st ++ dict_lines d)%list)
  ∧ show_metadata (PDict d) e st
    = (Ok tt, (st ++ match d with [] => [] | _ => dict_lines d end)%list).
Proof.
  intros Hs Hd. split.
  - apply show_metadata_dict; [|done]. simpl. by rewrite bool_decide_false.
  - destruct d as [|kv d].
    + rewrite app_nil_r. by apply show_metadata_falsy.
    + by apply show_metadata_dict.
Qed.

(** ** The order of a run *)

Lemma drivers_app (a b : log) : drivers (a ++ b)%list = (drivers a ++ drivers b)%list.
Proof. apply omap_app. Qed.

Lemma calls_app (a b : log) : calls (a ++ b)%list = (calls a ++ calls b)%list.
Proof. apply omap_app. Qed.

Lemma drivers_none (d : log) : Forall (λ x, is_drv x = false) d → drivers d = [].
Proof.
  induction 1 as [|x d Hx _ IH]; [done|]. destruct x; try done.
Qed.

Lemma drivers_steps (d : log) :
  Forall (λ x, match x with Drv ev => is_step ev | _ => True end) d →
  Forall is_step (drivers d).
Proof.
  induction 1 as [|x d Hx _ IH]; [constructor|].
  destruct x; simpl; try done. by constructor.
Qed.

(** What the connection helper does to the log, in every case. *)
Lemma main_connect_run e s :
  ∃ oc d,
    main_connect e s = (Ok oc, (s ++ d)%list)
    ∧ calls d = ["connect_to_database"]
    ∧ ((oc = None ∧ drivers d = []) ∨ (∃ p, drivers d = [EConnect p])).
Proof.
  unfold main_connect, connect_to_database, connect_body, psycopg2_connect,
    getenv, int.
  run_unfold.
  destruct (py_int (default "5432" (environ e !! "DB_PORT"))) as [n|].
  - destruct (fault e _) as [x|]; [|destruct (db_accepts e _) as [x|]];
      eexists _, _; unfold record; rewrite <-!app_assoc;
      (split_and!; [done|done|right; by eexists]).
  - eexists _, _. unfold record. rewrite <-!app_assoc.
    split_and!; [done|done|by left].
Qed.

(** X11. The driver calls of a run follow one protocol.  Either there is
    none (the port is not a number), or a single connection attempt that
    fails, or a connection, then only steps of queries, then one [close] as
    the last call: the connection is never used after it is closed, and never
    opened twice. *)
Theorem run_follows_the_protocol e s :
  ∃ r d,
    main e s = (r, (s ++ d)%list)
    ∧ ((r = Ok tt ∧ drivers d = [])
       ∨ (r = Ok tt ∧ ∃ p, drivers d = [EConnect p])
       ∨ (∃ p mid, drivers d = (EConnect p :: mid ++ [EClose])%list
                   ∧ Forall is_step mid)).
Proof.
  destruct (main_connect_run e s) as (oc & d0 & Hc & _ & Hd0).
  unfold main. run_unfold. rewrite Hc. destruct oc as [conn|].
  - destruct Hd0 as [[? _]|[p Hp]]; [done|].
    set (steps := λ x, match x with Drv ev => is_step ev | _ => True end).
    assert (emits steps (main_try conn)) as Htry.
    { unfold main_try. apply emits_bind.
      - by apply main_queries_emits.
      - intros _. by apply database_summary_emits. }
    destruct (Htry e (s ++ d0)%list) as (r1 & d1 & Hd1 & Hsteps).
    destruct (main_finally_run conn e ((s ++ d0) ++ d1)%list)
      as (rf & tail & Hf & Htail & _).
    unfold try_finally. rewrite Hd1, Hf.
    exists (match rf with Ok _ => r1 | Raise x => Raise x end),
      (d0 ++ d1 ++ Drv EClose :: tail)%list.
    split; [destruct rf as [[]|?]; by rewrite <-!app_assoc|].
    right. right. exists p, (drivers d1). split; [|by apply drivers_steps].
    rewrite !drivers_app, Hp. simpl. by rewrite (drivers_none tail).
  - exists (Ok tt), d0. split; [done|].
    destruct Hd0 as [[_ ?]|[p Hp]]; [by left|right; left; eauto].
Qed.

Lemma calls_none (d : log) : Forall no_enter d → calls d = [].
Proof.
  induction 1 as [|x d Hx _ IH]; [done|]. destruct x; try done.
Qed.

Lemma no_enter_admits : admits_queries no_enter.
Proof. by repeat split. Qed.

Lemma run_bind {A B} (m : M A) (k : A → M B) e s a s1 :
  m e s = (Ok a, s1) → (m ≫= k) e s = k a e s1.
Proof. intros H. run_unfold. by rewrite H. Qed.

Lemma enters_quiet {A} (m : M A) : emits no_enter m → enters [] m.
Proof.
  intros Hm e s. destruct (Hm e s) as (r & d & Hd & HP).
  exists r, d. split; [done|]. by apply calls_none.
Qed.

Lemma enters_entered {A} (f : string) (m : M A) :
  emits no_enter m → enters [f] (enter f ≫= λ _, m).
Proof.
  intros Hm e s. destruct (Hm e (record s (Enter f))) as (r & d & Hd & HP).
  exists r, (Enter f :: d). run_unfold. rewrite Hd. unfold record.
  rewrite <-app_assoc. split; [done|]. simpl. by rewrite (calls_none d).
Qed.

Lemma enters_bind {A B} l1 l2 (m : M A) (k : A → M B) :
  enters l1 m → safe m → (∀ a, enters l2 (k a)) → enters (l1 ++ l2) (m ≫= k).
Proof.
  intros Hm Hs Hk e s. destruct (Hm e s) as (r & d & Hd & Hc).
  destruct (Hs e s) as (a & s1 & Ha). rewrite Ha in Hd. injection Hd as <- ->.
  destruct (Hk a e (s ++ d)%list) as (r' & d' & Hd' & Hc').
  exists r', (d ++ d')%list. rewrite (run_bind _ _ _ _ _ _ Ha), Hd', <-app_assoc.
  split; [done|]. by rewrite calls_app, Hc, Hc'.
Qed.

Lemma enters_print {A} l line (k : unit → M A) :
  enters l (k tt) → enters l (print line ≫= k).
Proof.
  intros Hk. apply (enters_bind [] l); [|apply safe_print|by intros []].
  apply enters_quiet. by apply emits_print.
Qed.

Lemma check_table_structure_enters conn :
  enters ["check_table_structure"] (check_table_structure conn).
Proof.
  apply enters_entered, emits_try_except.
  - apply table_structure_body_emits, no_enter_admits.
  - intros x. by apply emits_print.
Qed.

Lemma check_recent_questions_enters conn W :
  enters ["check_recent_questions"] (check_recent_questions conn W).
Proof.
  apply enters_entered, emits_try_except.
  - apply recent_questions_body_emits, no_enter_admits.
  - intros x. apply emits_bind; [by apply emits_print|]. intros _. apply emits_ret.
Qed.

Lemma check_all_questions_enters conn N :
  enters ["check_all_questions"] (check_all_questions conn N).
Proof.
  apply enters_entered, emits_try_except.
  - apply all_questions_body_emits, no_enter_admits.
  - intros x. apply emits_bind; [by apply emits_print|]. intros _. apply emits_ret.
Qed.

Lemma main_recent_enters conn :
  enters ["check_table_structure"; "check_recent_questions"] (main_recent conn).
Proof.
  unfold main_recent. apply enters_print.
  apply (enters_bind ["check_table_structure"] ["check_recent_questions"]);
    [apply check_table_structure_enters|apply check_table_structure_safe|].
  intros []. apply enters_print, check_recent_questions_enters.
Qed.

Lemma main_queries_run conn e s :
  ∃ d, main_queries conn e s = (Ok tt, (s ++ d)%list)
       ∧ (calls d = ["check_table_structure"; "check_recent_questions"]
          ∨ calls d = ["check_table_structure"; "check_recent_questions";
                       "check_all_questions"]).
Proof.
  destruct (main_recent_enters conn e s) as (r & d & Hd & Hc).
  destruct (main_recent_safe conn e s) as (rows & s1 & Hs).
  rewrite Hs in Hd. injection Hd as _ ->.
  unfold main_queries. rewrite (run_bind _ _ _ _ _ _ Hs).
  destruct rows as [|row rows].
  - assert (enters ["check_all_questions"]
              (print (nl +:+ "3. Checking all questions (last 10)...") ≫= λ _,
               check_all_questions conn 10 ≫= λ _, mret tt)) as Hfb.
    { apply enters_print.
      apply (enters_bind ["check_all_questions"] []);
        [apply check_all_questions_enters|apply check_all_questions_safe|].
      intros _. apply enters_quiet, emits_ret. }
    destruct (Hfb e (s ++ d)%list) as (r' & d' & Hd' & Hc').
    assert (safe (print (nl +:+ "3. Checking all questions (last 10)...") ≫= λ _,
                  check_all_questions conn 10 ≫= λ _, mret tt)) as Hsafe by walk.
    destruct (Hsafe e (s ++ d)%list) as ([] & s2 & Hs2).
    rewrite Hs2 in Hd'. injection Hd' as <- ->.
    exists (d ++ d')%list. rewrite Hs2, <-app_assoc. split; [done|].
    right. by rewrite calls_app, Hc, Hc'.
  - exists d. split; [done|]. by left.
Qed.

(** X12. The steps of a run come in one order.  A run enters the connection
    helper; when it gets a connection it then enters schema introspection and
    the recency query, and last, only when that query returned nothing, the
    fallback query.  No helper is entered twice or out of turn. *)
Theorem run_steps_in_order e s :
  ∃ r d,
    main e s = (r, (s ++ d)%list)
    ∧ (calls d = ["connect_to_database"]
       ∨ calls d = ["connect_to_database"; "check_table_structure";
                    "check_recent_questions"]
       ∨ calls d = ["connect_to_database"; "check_table_structure";
                    "check_recent_questions"; "check_all_questions"]).
Proof.
  destruct (main_connect_run e s) as (oc & d0 & Hc & Hcalls & _).
  unfold main. rewrite (run_bind _ _ _ _ _ _ Hc).
  destruct oc as [conn|]; [|by exists (Ok tt), d0; eauto].
  destruct (main_queries_run conn e (s ++ d0)%list) as (d1 & Hq & Hc1).
  assert (emits no_enter (try_finally (database_summary conn) (main_finally conn)))
    as Hrest.
  { apply emits_try_finally; [apply database_summary_emits, no_enter_admits|].
    by apply main_finally_emits. }
  destruct (Hrest e ((s ++ d0) ++ d1)%list) as (r & d2 & Hd2 & HP).
  exists r, (d0 ++ d1 ++ d2)%list.
  rewrite (main_after_queries _ _ _ _ Hq), Hd2, <-!app_assoc. split; [done|].
  rewrite !calls_app, Hcalls, (calls_none d2 HP), app_nil_r.
  destruct Hc1 as [->| ->]; auto.
Qed.

(** ** The statements of a run *)

Lemma statements_app (a b : log) :
  statements (a ++ b)%list = (statements a ++ statements b)%list.
Proof. apply omap_app. Qed.

Lemma statements_none (d : log) :
  Forall (λ x, is_query x = false) d → statements d = [].
Proof.
  induction 1 as [|x d Hx _ IH]; [done|]. destruct x as [|[]|]; try done.
Qed.

Lemma sends_quiet {A} e (m : M A) :
  emits (λ x, is_query x = false) m → sends_within e [] m.
Proof.
  intros Hm s. destruct (Hm e s) as (r & d & Hd & HP).
  exists r, d. split; [done|]. by rewrite statements_none.
Qed.

Lemma sends_bind {A B} e l1 l2 (m : M A) (k : A → M B) :
  sends_within e l1 m → (∀ a, sends_within e l2 (k a)) →
  sends_within e (l1 ++ l2) (m ≫= k).
Proof.
  intros Hm Hk s. destruct (Hm s) as (r & d & Hd & Hsub).
  run_unfold. rewrite Hd. destruct r as [a|x].
  - destruct (Hk a (s ++ d)%list) as (r' & d' & Hd' & Hsub').
    exists r', (d ++ d')%list. rewrite Hd', <-app_assoc. split; [done|].
    rewrite statements_app. by apply sublist_app.
  - exists (Raise x), d. split; [done|]. by apply sublist_inserts_r.
Qed.

Lemma sends_try_except {A} e l1 l2 (m : M A) (h : exn → M A) :
  sends_within e l1 m → (∀ x, sends_within e l2 (h x)) →
  sends_within e (l1 ++ l2) (try_except m h).
Proof.
  intros Hm Hh s. destruct (Hm s) as (r & d & Hd & Hsub).
  unfold try_except. rewrite Hd. destruct r as [a|x].
  - exists (Ok a), d. split; [done|]. by apply sublist_inserts_r.
  - destruct (Hh x (s ++ d)%list) as (r' & d' & Hd' & Hsub').
    exists r', (d ++ d')%list. rewrite Hd', <-app_assoc. split; [done|].
    rewrite statements_app. by apply sublist_app.
Qed.

Lemma sends_try_finally {A} e l1 l2 (m : M A) (f : M unit) :
  sends_within e l1 m → sends_within e l2 f →
  sends_within e (l1 ++ l2) (try_finally m f).
Proof.
  intros Hm Hf s. destruct (Hm s) as (r & d & Hd & Hsub).
  destruct (Hf (s ++ d)%list) as (r' & d' & Hd' & Hsub').
  unfold try_finally. rewrite Hd, Hd', <-app_assoc.
  destruct r' as [[]|x]; eexists _, (d ++ d')%list; (split; [done|]);
    rewrite statements_app; by apply sublist_app.
Qed.

Lemma sends_execute e cur q : sends_within e [q] (cursor_execute cur q).
Proof. intros s. eexists _, [Drv (EExecute q)]. by split. Qed.

Lemma sends_lift_bind {A B} e l (r : result A) (k : A → M B) :
  (∀ a, r = Ok a → sends_within e l (k a)) → sends_within e l (lift r ≫= k).
Proof.
  intros Hk s. run_unfold. destruct r as [a|x]; [by apply Hk|].
  exists (Raise x), []. rewrite app_nil_r. split; [done|]. apply sublist_nil_l.
Qed.

Lemma sends_utcnow_bind {B} e l (k : Z → M B) :
  sends_within e l (k (utcnow e)) → sends_within e l (datetime_utcnow ≫= k).
Proof. intros Hk s. run_unfold. apply Hk. Qed.

Lemma sends_weaken {A} e l l' (m : M A) :
  l `sublist_of` l' → sends_within e l m → sends_within e l' m.
Proof.
  intros Hl Hm s. destruct (Hm s) as (r & d & Hd & Hsub).
  exists r, d. split; [done|]. by etrans.
Qed.

Lemma sends_print {A} e l line (k : unit → M A) :
  sends_within e l (k tt) → sends_within e l (print line ≫= k).
Proof.
  intros Hk. apply (sends_bind e [] l); [|by intros []].
  apply sends_quiet. by apply emits_print.
Qed.

Lemma table_structure_body_sends e conn :
  sends_within e [QColumns] (table_structure_body conn).
Proof.
  unfold table_structure_body.
  apply (sends_bind e [] [QColumns]); [apply sends_quiet; by apply emits_driver|].
  intros cur. apply (sends_bind e [QColumns] []);
    [apply (sends_execute e cur QColumns)|].
  intros pending. apply sends_quiet. walk; done.
Qed.

Lemma check_table_structure_sends e conn :
  sends_within e [QColumns] (check_table_structure conn).
Proof.
  unfold check_table_structure.
  apply (sends_bind e [] [QColumns]); [apply sends_quiet; by apply emits_enter|].
  intros _. apply (sends_try_except e [QColumns] []);
    [apply table_structure_body_sends|].
  intros x. apply sends_quiet. by apply emits_print.
Qed.

Lemma recent_questions_body_sends e conn W :
  sends_within e [QRecent (utcnow e - W * us_per_hour)]
    (recent_questions_body conn W).
Proof.
  unfold recent_questions_body.
  apply (sends_bind e [] [_]); [apply sends_quiet; by apply emits_driver|].
  intros cur. apply sends_utcnow_bind.
  apply sends_lift_bind. intros delta ->%timedelta_ok.
  apply sends_lift_bind. intros t ->%datetime_sub_ok.
  apply (sends_bind e [_] []); [apply (sends_execute e cur (QRecent _))|].
  intros pending. apply sends_quiet. walk; auto using show_metadata_emits.
Qed.

Lemma check_recent_questions_sends e conn W :
  sends_within e [QRecent (utcnow e - W * us_per_hour)]
    (check_recent_questions conn W).
Proof.
  unfold check_recent_questions.
  apply (sends_bind e [] [_]); [apply sends_quiet; by apply emits_enter|].
  intros _. apply (sends_try_except e [_] []);
    [apply recent_questions_body_sends|].
  intros x. apply sends_quiet. walk; done.
Qed.

Lemma all_questions_body_sends e conn N :
  sends_within e [QAll N] (all_questions_body conn N).
Proof.
  unfold all_questions_body.
  apply (sends_bind e [] [_]); [apply sends_quiet; by apply emits_driver|].
  intros cur. apply (sends_bind e [_] []); [apply (sends_execute e cur (QAll N))|].
  intros pending. apply sends_quiet. walk; auto using show_metadata_emits.
Qed.

Lemma check_all_questions_sends e conn N :
  sends_within e [QAll N] (check_all_questions conn N).
Proof.
  unfold check_all_questions.
  apply (sends_bind e [] [_]); [apply sends_quiet; by apply emits_enter|].
  intros _. apply (sends_try_except e [_] []);
    [apply all_questions_body_sends|].
  intros x. apply sends_quiet. walk; done.
Qed.

Lemma database_summary_sends e conn :
  sends_within e [QCount "question"; QCount "answer"] (database_summary conn).
Proof.
  unfold database_summary.
  apply (sends_bind e [] [_; _]); [apply sends_quiet; by apply emits_driver|].
  intros cur. apply (sends_bind e [_] [_]);
    [apply (sends_execute e cur (QCount "question"))|].
  intros pending.
  apply (sends_bind e [] [_]); [apply sends_quiet; by apply emits_driver|].
  intros first.
  apply (sends_bind e [] [_]); [apply sends_quiet, emits_item_0|].
  intros total_questions. apply (sends_bind e [_] []);
    [apply (sends_execute e cur (QCount "answer"))|].
  intros pending'. apply sends_quiet. walk; done.
Qed.

(** X13. No statement is retried and nothing else is ever sent: the
    statements of a run are, in this order and each at most once, the schema
    query, the recency query for the last 24 hours, the fallback query with
    limit 10 and the two counts. *)
Theorem run_sends_each_statement_once e s :
  ∃ r d,
    main e s = (r, (s ++ d)%list)
    ∧ statements d `sublist_of`
        [ QColumns; QRecent (utcnow e - 24 * us_per_hour); QAll 10;
          QCount "question"; QCount "answer" ].
Proof.
  apply (sends_bind e [] [_; _; _; _; _]).
  { apply sends_quiet. by apply main_connect_emits. }
  intros [conn|];
    [|apply (sends_weaken e []); [apply sublist_nil_l|apply sends_quiet, emits_ret]].
  apply (sends_try_finally e [_; _; _; _; _] []);
    [|apply sends_quiet; by apply main_finally_emits].
  unfold main_try. apply (sends_bind e [_; _; _] [_; _]);
    [|intros _; apply database_summary_sends].
  unfold main_queries. apply (sends_bind e [_; _] [_]).
  - unfold main_recent. apply sends_print.
    apply (sends_bind e [_] [_]); [apply check_table_structure_sends|].
    intros _. apply sends_print, check_recent_questions_sends.
  - intros [|row rows];
      [|apply (sends_weaken e []); [apply sublist_nil_l|apply sends_quiet, emits_ret]].
    apply sends_print. apply (sends_bind e [_] []);
      [apply check_all_questions_sends|].
    intros _. apply sends_quiet, emits_ret.
Qed.

(** ** Edges *)

(** X14. A window the date arithmetic cannot express (too many days for a
    [timedelta], or a threshold outside the years 1 to 9999) makes the recency
    query fail before any statement is sent: the error is caught like a
    failure of the query, and the answer is empty. *)
Theorem window_out_of_range conn W e s x :
  fault e (count is_drv s) = None →
  (timedelta W = Raise x
   ∨ ∃ delta, timedelta W = Ok delta ∧ datetime_sub (utcnow e) delta = Raise x) →
  check_recent_questions conn W e s
  = (Ok [],
     (s ++ [ Enter "check_recent_questions"; Drv ECursor;
             Out ("❌ Error querying questions: " +:+ exn_msg x) ])%list).
Proof.
  intros Hf Hw. unfold check_recent_questions, recent_questions_body. run_unfold.
  rewrite count_is_drv_enter, Hf.
  destruct Hw as [->|(delta & -> & ->)]; unfold record; by rewrite <-!app_assoc.
Qed.

(** X15. A recency query that fails is not told apart from one that finds
    nothing: its error is caught, its answer is empty, and the run goes on to
    the fallback query, which is entered right after the error line. *)
Theorem failed_recency_triggers_fallback conn e s s1 x s2 :
  check_table_structure conn e
    (record s (Out (nl +:+ "1. Checking table structure..."))) = (Ok tt, s1) →
  recent_questions_body conn 24 e
    (record (record s1 (Out (nl +:+ "2. Checking recent questions (last 24 hours)...")))
       (Enter "check_recent_questions")) = (Raise x, s2) →
  ∃ d,
    main_queries conn e s
    = (Ok tt,
       (s2 ++ [ Out ("❌ Error querying questions: " +:+ exn_msg x);
                Out (nl +:+ "3. Checking all questions (last 10)...");
                Enter "check_all_questions" ] ++ d)%list).
Proof.
  intros Hts Hrec.
  destruct (check_all_questions_run conn 10 e
              (record (record s2 (Out ("❌ Error querying questions: " +:+ exn_msg x)))
                 (Out (nl +:+ "3. Checking all questions (last 10)..."))))
    as (rows & d & Hall & _).
  exists d.
  unfold main_queries, main_recent, check_recent_questions. run_unfold.
  rewrite Hts, Hrec, Hall. unfold record. by rewrite <-!app_assoc.
Qed.

Lemma stdout_record (s : log) x :
  stdout (record s x)
  = (stdout s ++ match x with Out l => [l] | _ => [] end)%list.
Proof. unfold stdout, record. rewrite omap_app. by destruct x. Qed.

(** X16. The password is not printed: with [DB_PASSWORD] set to another
    value, and the same verdict of the server, the connection helper prints
    the same lines. *)
Theorem password_is_not_printed e pw s :
  (∀ n, db_accepts e (configured (with_password e pw) n)
        = db_accepts e (configured e n)) →
  stdout (connect_to_database (with_password e pw) s).2
  = stdout (connect_to_database e s).2.
Proof.
  intros Hverdict.
  unfold connect_to_database, connect_body, psycopg2_connect, getenv, int.
  run_unfold. simpl.
  rewrite !lookup_insert_ne by done.
  destruct (py_int (default "5432" (environ e !! "DB_PORT"))) as [n|]; [|done].
  simpl. rewrite lookup_insert_eq. simpl.
  pose proof (Hverdict n) as Hn. unfold configured in Hn. simpl in Hn.
  rewrite !lookup_insert_ne, lookup_insert_eq in Hn by done. simpl in Hn.
  rewrite Hn. clear Hn Hverdict.
  destruct (fault e _) as [x|]; [|destruct (db_accepts e _) as [x|]];
    cbv beta iota zeta delta [snd]; by rewrite !stdout_record.
Qed.

End more.

(** ** Concrete runs of the further properties *)



Lemma recent_rows_are_within_the_window_witness :
  utcnow quiet_env = db_now quiet_env
  ∧ ∃ rows s',
      check_recent_questions (decoder := json_fragment_loads) sample_conn 24
        quiet_env [] = (Ok rows, s')
      ∧ ∀ r, r ∈ rows → (r_hours_ago r <= inject_Z 24)%Q.
Proof.
  split; [reflexivity|].
  apply (recent_rows_are_within_the_window (decoder := json_fragment_loads)
           sample_conn 24 quiet_env []).
  reflexivity.
Defined.


Lemma recent_rows_are_counted_witness :
  interview_messages (database quiet_env) = Some sample_table
  ∧ ∃ rows s',
      check_recent_questions (decoder := json_fragment_loads) sample_conn 24
        quiet_env [] = (Ok rows, s')
      ∧ (length rows ≤ length (filter (is_type "question") sample_table))%nat.
Proof.
  split; [reflexivity|].
  apply (recent_rows_are_counted (decoder := json_fragment_loads)
           sample_conn 24 quiet_env [] sample_table).
  reflexivity.
Defined.

Lemma table_structure_is_listed_witness :
  (∀ k, fault quiet_env k = None)
  ∧ db_columns (database quiet_env) ≠ []
  ∧ stdout (check_table_structure sample_conn quiet_env []).2
    = [ "📋 interview_messages table structure:";
        str_mul "-" 60;
        "   id                   | uuid            | NOT NULL | gen_random_uuid()";
        "   content              | text            | NOT NULL | " ].
Proof.
  split; [done|]. split; [done|].
  rewrite (table_structure_is_listed sample_conn quiet_env []) by done.
  reflexivity.
Defined.

Lemma summary_counts_the_rows_witness :
  (∀ k, fault quiet_env k = None)
  ∧ interview_messages (database quiet_env) = Some sample_table
  ∧ stdout (database_summary sample_conn quiet_env []).2
    = [ nl +:+ "📊 Database Summary:";
        "   Total Questions: 3";
        "   Total Answers: 1" ].
Proof.
  split; [done|]. split; [reflexivity|].
  destruct (summary_counts_the_rows sample_conn quiet_env [] sample_table)
    as [-> _]; [done|reflexivity|].
  reflexivity.
Defined.

Lemma text_and_decoded_metadata_witness :
  "{}" ≠ ""
  ∧ json_fragment_loads "{}" = Ok (PDict [])
  ∧ show_metadata (decoder := json_fragment_loads) (PStr "{}") quiet_env []
    = (Ok tt, [ Out "   Source: unknown"; Out "   Category: unknown";
                Out "   Difficulty: unknown" ])
  ∧ show_metadata (decoder := json_fragment_loads) (PDict []) quiet_env []
    = (Ok tt, []).
Proof.
  split; [done|]. split; [reflexivity|].
  apply (text_and_decoded_metadata (decoder := json_fragment_loads)
           "{}" [] quiet_env []); [done|reflexivity].
Defined.

Lemma window_out_of_range_witness :
  fault quiet_env (count is_drv []) = None
  ∧ timedelta (24 * 1000000000)
    = Raise (OverflowError "days=1000000000; must have magnitude <= 999999999")
  ∧ check_recent_questions (decoder := json_fragment_loads) sample_conn
      (24 * 1000000000) quiet_env []
    = (Ok [],
       [ Enter "check_recent_questions"; Drv ECursor;
         Out ("❌ Error querying questions: "
              +:+ "days=1000000000; must have magnitude <= 999999999") ]).
Proof.
  split; [reflexivity|]. split; [reflexivity|].
  apply (window_out_of_range (decoder := json_fragment_loads) sample_conn
           (24 * 1000000000) quiet_env []
           (OverflowError "days=1000000000; must have magnitude <= 999999999"));
    [reflexivity|].
  left. reflexivity.
Defined.

Lemma failed_recency_triggers_fallback_witness :
  ∃ s1 s2,
    check_table_structure sample_conn (sample_env ∅ None no_fault)
      (record [] (Out (nl +:+ "1. Checking table structure..."))) = (Ok tt, s1)
    ∧ recent_questions_body (decoder := json_fragment_loads) sample_conn 24
        (sample_env ∅ None no_fault)
        (record (record s1 (Out (nl +:+ "2. Checking recent questions (last 24 hours)...")))
           (Enter "check_recent_questions")) = (Raise undefined_table, s2)
    ∧ ∃ d,
        main_queries (decoder := json_fragment_loads) sample_conn
          (sample_env ∅ None no_fault) []
        = (Ok tt,
           (s2 ++ [ Out ("❌ Error querying questions: " +:+ exn_msg undefined_table);
                    Out (nl +:+ "3. Checking all questions (last 10)...");
                    Enter "check_all_questions" ] ++ d)%list).
Proof.
  eexists _, _. split; [reflexivity|]. split; [reflexivity|].
  eapply (failed_recency_triggers_fallback (decoder := json_fragment_loads));
    reflexivity.
Defined.

Lemma password_is_not_printed_witness :
  (∀ n, db_accepts quiet_env (configured (with_password quiet_env "s3cret") n)
        = db_accepts quiet_env (configured quiet_env n))
  ∧ stdout (connect_to_database (with_password quiet_env "s3cret") []).2
    = stdout (connect_to_database quiet_env []).2.
Proof.
  split; [done|].
  apply (password_is_not_printed quiet_env "s3cret" []). done.
Defined.
